(** * nano-abnovo: the download scripts [download_pdb.py] and [download_sabdab.py]

    A shallow embedding of the two bulk downloaders under [scripts/] and the
    properties of their failure ledger, retry loop and failure report.

    Modelling conventions.
    - Python [str] values are [string]s (byte strings); Python [int]s are [Z].
    - [time.time()] returns a float in the source; here the clock is an
      integer number of seconds kept in the state, [time.sleep d] adds [d].
    - The file system is a finite map from paths to file contents; directories
      are not represented ([os.makedirs] has no effect on the map) and paths
      are compared as they are written.
    - The network, the duration of requests, disk faults and the order in
      which a thread pool completes its tasks are not under the program's
      control: they are collected in an environment record [Env].
    - [self.failed_downloads] is a Python [dict], which iterates in insertion
      order: it is an association list whose keys are pairwise distinct.
    - The search service [PDBDownloader.fetch_pdb_ids] queries is a parameter
      that gives, for a cutoff date, a start index and a number of rows, an
      exception or the identifiers of the entries of the answer.
    - [print] and the [tqdm] progress bar leave the modelled state untouched
      and are omitted. *)

From Stdlib Require Import ZArith Lia Ascii String.
From stdpp Require Import base gmap list strings pretty sorting fin_maps.

Open Scope string_scope.
Open Scope Z_scope.

(** ** Exceptions *)

Inductive exn :=
  | KeyError (key : string)
  | FileNotFoundError (msg : string)
  | OSError (msg : string).

Inductive result (A : Type) :=
  | Ok (a : A)
  | Raise (e : exn).
Arguments Ok {A} a.
Arguments Raise {A} e.

(** The exception monad for computations that only read the state, with
    stdpp's [x ← m; k] notation. *)
Global Instance result_ret : MRet result := λ A a, Ok a.
Global Instance result_bind : MBind result := λ A B k r,
  match r with
  | Ok a => k a
  | Raise e => Raise e
  end.

(** ** Python dictionaries with insertion order *)

Module Dict.
Section ops.
Context {V : Type}.

(** [d.get(k)]: the value stored under [k], if any. *)
Fixpoint get (k : string) (d : list (string * V)) : option V :=
  match d with
  | [] => None
  | (k', v) :: d' => if decide (k' = k) then Some v else get k d'
  end.

(** [d[k] = v]: overwrite in place when [k] is a key, append otherwise. *)
Fixpoint set (k : string) (v : V) (d : list (string * V)) : list (string * V) :=
  match d with
  | [] => [(k, v)]
  | (k', v') :: d' =>
      if decide (k' = k) then (k', v) :: d' else (k', v') :: set k v d'
  end.

(** In-place mutation of the object stored under [k], as
    [d[k].field = ...] does. *)
Fixpoint alter (f : V → V) (k : string) (d : list (string * V)) : list (string * V) :=
  match d with
  | [] => []
  | (k', v) :: d' =>
      if decide (k' = k) then (k', f v) :: d' else (k', v) :: alter f k d'
  end.

(** [del d[k]] on a key that is present. *)
Fixpoint del (k : string) (d : list (string * V)) : list (string * V) :=
  match d with
  | [] => []
  | (k', v) :: d' =>
      if decide (k' = k) then del k d' else (k', v) :: del k d'
  end.

Definition keys (d : list (string * V)) : list string := d.*1.

(** The invariant of a dictionary: no key occurs twice. *)
Definition wf (d : list (string * V)) : Prop := NoDup (keys d).
End ops.
End Dict.

(** ** Failure records: [class DownloadFailure] *)

Record DownloadFailure := mkDownloadFailure {
  pdb_id : string;
  error_msg : string;
  attempt : Z;
  timestamp : Z;
}.

Definition with_attempt (a : Z) (f : DownloadFailure) : DownloadFailure :=
  mkDownloadFailure (pdb_id f) (error_msg f) a (timestamp f).
Definition with_error_msg (m : string) (f : DownloadFailure) : DownloadFailure :=
  mkDownloadFailure (pdb_id f) m (attempt f) (timestamp f).
Definition with_timestamp (t : Z) (f : DownloadFailure) : DownloadFailure :=
  mkDownloadFailure (pdb_id f) (error_msg f) (attempt f) t.

(** ** The environment and the state *)

(** What one [requests.get] produces: an exception (timeout, connection or
    DNS failure) or a response with a status code and a body. *)
Inductive Reply :=
  | Raises (e : string)
  | Response (status_code : Z) (content : string).

(** What may go wrong when a file is written with
    [with open(path, mode) as f: f.write(...)]: [open] raises and nothing is
    created, or a write raises after [open] has created the file. *)
Inductive DiskFault :=
  | OpenFails (e : string)
  | WriteFails (e : string) (written : string).

Definition fault_text (d : DiskFault) : string :=
  match d with
  | OpenFails e => e
  | WriteFails e _ => e
  end.

Record Env := mkEnv {
  (** the reply to the [n]-th request (counting from 0) for a URL *)
  remote : string → nat → Reply;
  (** the time that request takes *)
  elapsed : string → nat → Z;
  (** the fault, if any, met when writing a path after [n] requests *)
  storage : string → nat → option DiskFault;
  (** the order in which the tasks submitted to a pool complete *)
  completion : list string → list string;
}.

Record State := mkState {
  files : gmap string string;
  clock : Z;
  requests : list string;
  failed_downloads : list (string * DownloadFailure);
}.

(** How a method that changes the state ends: it returns, or it raises an
    exception that nothing catches; either way the state it leaves is kept. *)
Inductive outcome :=
  | Returned (s : State)
  | Raised (e : exn) (s : State).

Definition final_state (o : outcome) : State :=
  match o with
  | Returned s => s
  | Raised _ s => s
  end.

Definition set_files (fs : gmap string string) (s : State) : State :=
  mkState fs (clock s) (requests s) (failed_downloads s).
Definition set_failed_downloads (d : list (string * DownloadFailure)) (s : State) : State :=
  mkState (files s) (clock s) (requests s) d.

(** [time.sleep(d)] *)
Definition sleep (d : Z) (s : State) : State :=
  mkState (files s) (clock s + d) (requests s) (failed_downloads s).

(** [os.path.exists(path)] *)
Definition path_exists (path : string) (s : State) : bool :=
  bool_decide (is_Some (files s !! path)).

Definition starts_with_slash (p : string) : bool :=
  match p with
  | String c _ => bool_decide (c = "/"%char)
  | EmptyString => false
  end.

Fixpoint ends_with_slash (p : string) : bool :=
  match p with
  | EmptyString => false
  | String c EmptyString => bool_decide (c = "/"%char)
  | String _ p' => ends_with_slash p'
  end.

(** [os.path.join(a, b)] on POSIX. *)
Definition path_join (a b : string) : string :=
  if starts_with_slash b then b
  else if bool_decide (a = "") || ends_with_slash a then a +:+ b
  else a +:+ "/" +:+ b.

Section with_env.
Context (env : Env).

(** [requests.get(url, timeout=30)] *)
Definition requests_get (url : string) (s : State) : Reply * State :=
  let n := length (filter (λ u, u = url) (requests s)) in
  (remote env url n,
   mkState (files s) (clock s + elapsed env url n) (requests s ++ [url])
           (failed_downloads s)).

(** [with open(path, mode) as f: f.write(data)] *)
Definition write_file (path data : string) (s : State) : option DiskFault * State :=
  match storage env path (length (requests s)) with
  | None => (None, set_files (<[path := data]> (files s)) s)
  | Some (OpenFails e) => (Some (OpenFails e), s)
  | Some (WriteFails e written) =>
      (Some (WriteFails e written), set_files (<[path := written]> (files s)) s)
  end.
End with_env.

(** ** What the two downloader classes share

    [PDBDownloader] and [SabdabDownloader] have the same [_process_batch],
    [_record_failure], [_retry_failed_downloads] and [_save_failure_summary]
    (up to the progress display); they differ in their directories, the
    extension of the files they write, the name of the failure report and in
    [_download_single_file], which are the parameters of this section. *)

Definition TAB : string := String (ascii_of_nat 9) EmptyString.
Definition LF : string := String (ascii_of_nat 10) EmptyString.

Module Engine.
Section engine.
Context (env : Env).
Context (output_dir extension failure_file : string).
Context (MAX_RETRY_ATTEMPTS RETRY_WAIT_TIME : Z).
Context (download_single_file : string → State → bool * string * State).

(** The file a download of [pdb_id] is written to. *)
Definition artifact (pdb_id : string) : string :=
  path_join output_dir (pdb_id +:+ extension).

(** [DownloadFailure(pdb_id, error_msg)], with [attempt] defaulting to 1. *)
Definition new_failure (pdb_id error_msg : string) (s : State) : DownloadFailure :=
  mkDownloadFailure pdb_id error_msg 1 (clock s).

Definition record_failure (pdb_id error_msg : string) (s : State) : State :=
  if decide (pdb_id ∈ Dict.keys (failed_downloads s)) then
    let d1 := Dict.alter (λ f, with_attempt (attempt f + 1) f) pdb_id (failed_downloads s) in
    let d2 := Dict.alter (with_error_msg error_msg) pdb_id d1 in
    let d3 := Dict.alter (with_timestamp (clock s)) pdb_id d2 in
    set_failed_downloads d3 s
  else
    set_failed_downloads
      (Dict.set pdb_id (new_failure pdb_id error_msg s) (failed_downloads s)) s.

(** One task of the pool together with the handling of its outcome in the
    [as_completed] loop. *)
Definition process_one (s : State) (pdb_id : string) : State :=
  let '(success, result, s1) := download_single_file pdb_id s in
  if success then s1 else record_failure pdb_id result s1.

(** One task per element of [pdb_ids]; the outcomes are handled in the
    order in which the tasks complete. *)
Definition process_batch (pdb_ids : list string) (s : State) : State :=
  foldl process_one s (completion env pdb_ids).

(** The list comprehension selecting the identifiers to retry. *)
Definition retry_candidates (current_time : Z)
    (d : list (string * DownloadFailure)) : list string :=
  (filter (λ kv, attempt kv.2 < MAX_RETRY_ATTEMPTS ∧
                 RETRY_WAIT_TIME ≤ current_time - timestamp kv.2) d).*1.

(** The body of the clean-up loop for one key of the snapshot
    [list(self.failed_downloads.keys())]. *)
Definition cleanup_entry (retry_pdb_ids : list string) (s : State)
    (pdb_id : string) : outcome :=
  if decide (pdb_id ∈ retry_pdb_ids) then
    match Dict.get pdb_id (failed_downloads s) with
    | None => Raised (KeyError pdb_id) s
    | Some failure =>
        if decide (MAX_RETRY_ATTEMPTS ≤ attempt failure) then
          Returned (set_failed_downloads (Dict.del pdb_id (failed_downloads s)) s)
        else if path_exists (artifact pdb_id) s then
          Returned (set_failed_downloads (Dict.del pdb_id (failed_downloads s)) s)
        else Returned s
    end
  else Returned s.

Fixpoint cleanup_loop (retry_pdb_ids : list string) (snapshot : list string)
    (s : State) : outcome :=
  match snapshot with
  | [] => Returned s
  | pdb_id :: rest =>
      match cleanup_entry retry_pdb_ids s pdb_id with
      | Returned s' => cleanup_loop retry_pdb_ids rest s'
      | Raised e s' => Raised e s'
      end
  end.

Definition cleanup (retry_pdb_ids : list string) (s : State) : outcome :=
  cleanup_loop retry_pdb_ids (Dict.keys (failed_downloads s)) s.

(** The [while self.failed_downloads] loop.  [fuel] bounds the number of
    iterations of the loop body; [None] means that the loop is still
    running when the fuel is spent. *)
Fixpoint retry_failed_downloads (fuel : nat) (s : State) : option outcome :=
  match failed_downloads s with
  | [] => Some (Returned s)
  | _ :: _ =>
      match fuel with
      | O => None
      | S fuel' =>
          let current_time := clock s in
          let retry_pdb_ids := retry_candidates current_time (failed_downloads s) in
          match retry_pdb_ids with
          | [] => retry_failed_downloads fuel' (sleep 60 s)
          | _ :: _ =>
              match cleanup retry_pdb_ids (process_batch retry_pdb_ids s) with
              | Returned s' => retry_failed_downloads fuel' s'
              | Raised e s' => Some (Raised e s')
              end
          end
      end
  end.

(** One row of the failure report. *)
Definition report_line (kv : string * DownloadFailure) : string :=
  kv.1 +:+ TAB +:+ pretty (attempt kv.2) +:+ TAB +:+ error_msg kv.2 +:+ LF.

Definition report (d : list (string * DownloadFailure)) : string :=
  foldr (λ kv acc, report_line kv +:+ acc) "" d.

Definition save_failure_summary (s : State) : outcome :=
  match failed_downloads s with
  | [] => Returned s
  | _ :: _ =>
      match write_file env failure_file (report (failed_downloads s)) s with
      | (None, s') => Returned s'
      | (Some fault, s') => Raised (OSError (fault_text fault)) s'
      end
  end.

(** The tail shared by both [download_structures]: drain the ledger when
    it is not empty, then write the report. *)
Definition finish (fuel : nat) (s : State) : option outcome :=
  match failed_downloads s with
  | [] => Some (save_failure_summary s)
  | _ :: _ =>
      match retry_failed_downloads fuel s with
      | None => None
      | Some (Raised e s') => Some (Raised e s')
      | Some (Returned s') => Some (save_failure_summary s')
      end
  end.
End engine.
End Engine.

(** ** Text helpers from the Python library *)

(** [str.isspace] on one byte: TAB, LF, VT, FF, CR, FS, GS, RS, US, space. *)
Definition isspace (c : ascii) : bool :=
  let n := nat_of_ascii c in
  ((9 <=? n) && (n <=? 13) || (28 <=? n) && (n <=? 32))%nat.

Fixpoint lstrip (s : string) : string :=
  match s with
  | EmptyString => EmptyString
  | String c s' => if isspace c then lstrip s' else s
  end.

Fixpoint rstrip (s : string) : string :=
  match s with
  | EmptyString => EmptyString
  | String c s' =>
      match rstrip s' with
      | EmptyString => if isspace c then EmptyString else String c EmptyString
      | r => String c r
      end
  end.

(** [s.strip()] *)
Definition strip (s : string) : string := rstrip (lstrip s).

(** [s.split(sep)] for a one-character separator. *)
Fixpoint split (sep : ascii) (s : string) : list string :=
  match s with
  | EmptyString => [EmptyString]
  | String c s' =>
      if decide (c = sep) then EmptyString :: split sep s'
      else match split sep s' with
           | [] => [String c EmptyString]
           | field :: fields => String c field :: fields
           end
  end.

(** [f.readlines()] on a file opened in text mode: every line keeps its
    terminator, and CR LF and CR are read as LF. *)
Fixpoint readlines (s : string) : list string :=
  match s with
  | EmptyString => []
  | String c s' =>
      if decide (c = ascii_of_nat 10) then LF :: readlines s'
      else if decide (c = ascii_of_nat 13) then
        match s' with
        | String c' s'' =>
            if decide (c' = ascii_of_nat 10) then LF :: readlines s''
            else LF :: readlines s'
        | EmptyString => [LF]
        end
      else match readlines s' with
           | [] => [String c EmptyString]
           | line :: lines => String c line :: lines
           end
  end.

(** [s.startswith(p)], returning what follows the prefix. *)
Fixpoint strip_prefix (p s : string) : option string :=
  match p, s with
  | EmptyString, _ => Some s
  | String a p', String b s' => if decide (a = b) then strip_prefix p' s' else None
  | String _ _, EmptyString => None
  end.

Fixpoint has_slash (s : string) : bool :=
  match s with
  | EmptyString => false
  | String c s' => bool_decide (c = "/"%char) || has_slash s'
  end.

(** [os.listdir(dir)]: the names of the files directly inside [dir]. *)
Definition listdir (dir : string) (s : State) : list string :=
  omap (λ kv, match strip_prefix (dir +:+ "/") kv.1 with
              | Some name => if has_slash name || bool_decide (name = "") then None
                             else Some name
              | None => None
              end)
       (map_to_list (files s)).

(** [sorted] on a list of strings. *)
Definition sorted (l : list string) : list string :=
  merge_sort (λ a b, Is_true (String.leb a b)) l.

(** [open(path, "r")] followed by reading the whole file. *)
Definition read_text (path : string) (s : State) : result string :=
  match files s !! path with
  | Some content => Ok content
  | None => Raise (FileNotFoundError path)
  end.

(** [sep.join(xs)] *)
Fixpoint str_join (sep : string) (xs : list string) : string :=
  match xs with
  | [] => EmptyString
  | x :: rest =>
      match rest with
      | [] => x
      | _ :: _ => x +:+ sep +:+ str_join sep rest
      end
  end.

(** How a slice bound is read against a list of length [n]: a negative
    bound counts from the end, and every bound is clipped to [0..n]. *)
Definition slice_bound (n i : Z) : Z :=
  if decide (i < 0) then Z.max 0 (i + n) else Z.min i n.

(** [l[lo:hi]] *)
Definition py_slice {A} (l : list A) (lo hi : Z) : list A :=
  let n := Z.of_nat (length l) in
  let lo' := slice_bound n lo in
  let hi' := slice_bound n hi in
  take (Z.to_nat (hi' - lo')) (drop (Z.to_nat lo') l).

(** What the search service produces for one page: an exception of
    [requests] (raised by [post], [raise_for_status] or [json]), or the
    identifiers of the entries of the ["result_set"] of the answer, the
    empty list when the answer has none. *)
Inductive SearchReply :=
  | SearchRaises (e : string)
  | ResultSet (identifiers : list string).

(** ** [class PDBDownloader] (download_pdb.py) *)

Module PDBDownloader.
Definition output_dir : string := "datasets/raw/pdb".
Definition ids_dir : string := "datasets/raw/pdb_ids".
Definition MAX_RETRY_ATTEMPTS : Z := 3.
Definition RETRY_WAIT_TIME : Z := 300.
Definition max_workers : Z := 20.
Definition failure_file : string := path_join "datasets" "failed_downloads_pdb_cif.txt".

Section methods.
Context (env : Env).

Definition download_single_file (pdb_id : string) (s : State) : bool * string * State :=
  let cif_url := "https://files.rcsb.org/download/" +:+ pdb_id +:+ ".cif" in
  match requests_get env cif_url s with
  | (Response status_code content, s1) =>
      if decide (status_code = 200) then
        match write_file env (path_join output_dir (pdb_id +:+ ".cif")) content s1 with
        | (None, s2) => (true, "Successfully downloaded " +:+ pdb_id +:+ ".cif", s2)
        | (Some fault, s2) =>
            (false, "Error downloading " +:+ pdb_id +:+ ".cif: " +:+ fault_text fault, s2)
        end
      else
        (false, "Failed to download " +:+ pdb_id +:+ ".cif, status code: "
                +:+ pretty status_code, s1)
  | (Raises e, s1) =>
      (false, "Error downloading " +:+ pdb_id +:+ ".cif: " +:+ e, s1)
  end.

Definition record_failure := Engine.record_failure.
Definition process_batch := Engine.process_batch env download_single_file.
Definition retry_candidates :=
  Engine.retry_candidates MAX_RETRY_ATTEMPTS RETRY_WAIT_TIME.
Definition cleanup :=
  Engine.cleanup output_dir ".cif" MAX_RETRY_ATTEMPTS.
Definition retry_failed_downloads :=
  Engine.retry_failed_downloads env output_dir ".cif"
    MAX_RETRY_ATTEMPTS RETRY_WAIT_TIME download_single_file.
Definition save_failure_summary := Engine.save_failure_summary env failure_file.

(** The loop of [download_structures] over the batch files; [remaining]
    is the number of batch files after the current one. *)
Fixpoint process_batch_files (batch_files : list string) (s : State) : outcome :=
  match batch_files with
  | [] => Returned s
  | batch_file :: rest =>
      match read_text (path_join ids_dir batch_file) s with
      | Raise e => Raised e s
      | Ok content =>
          let pdb_ids := strip <$> readlines content in
          let s1 := process_batch pdb_ids s in
          let remaining_batches := Z.of_nat (length rest) in
          let s2 := if decide (0 < remaining_batches) then sleep 2 s1 else s1 in
          process_batch_files rest s2
      end
  end.

Definition download_structures (fuel : nat) (s : State) : option outcome :=
  let batch_files :=
    sorted (filter (λ f, is_Some (strip_prefix "pdb_ids_batch_" f)) (listdir ids_dir s)) in
  match process_batch_files batch_files s with
  | Raised e s1 => Some (Raised e s1)
  | Returned s1 =>
      Engine.finish env output_dir ".cif" failure_file
        MAX_RETRY_ATTEMPTS RETRY_WAIT_TIME download_single_file fuel s1
  end.

(** The search service: the page for a cutoff date, a start index and a
    number of rows. *)
Context (search : string → Z → Z → SearchReply).

Definition search_url : string := "https://search.rcsb.org/rcsbsearch/v2/query".

(** [requests.post(url, json=query_template)]: the request is logged and
    takes its time. *)
Definition requests_post (url : string) (s : State) : State :=
  let n := length (filter (λ u, u = url) (requests s)) in
  mkState (files s) (clock s + elapsed env url n) (requests s ++ [url])
          (failed_downloads s).

Definition save_batch_ids (all_ids : list string) (batch_count batch_size : Z)
    (s : State) : outcome :=
  let batch_ids := py_slice all_ids (batch_count * batch_size)
                     ((batch_count + 1) * batch_size) in
  let batch_file := path_join ids_dir ("pdb_ids_batch_" +:+ pretty batch_count +:+ ".txt") in
  match write_file env batch_file (str_join LF batch_ids) s with
  | (None, s') => Returned s'
  | (Some fault, s') => Raised (OSError (fault_text fault)) s'
  end.

(** The [while True] loop of [fetch_pdb_ids], with [rows = 100]; [fuel]
    bounds the number of pages requested.  The result is the list
    [all_pdb_ids], the counter [batch_count] and how the loop ended. *)
Fixpoint fetch_pages (fuel : nat) (cutoff_date : string) (batch_size : Z)
    (all_pdb_ids : list string) (start batch_count : Z) (s : State)
    : option (list string * Z * outcome) :=
  match fuel with
  | O => None
  | S fuel' =>
      let s1 := requests_post search_url s in
      match search cutoff_date start 100 with
      | SearchRaises e => Some (all_pdb_ids, batch_count, Returned s1)
      | ResultSet [] => Some (all_pdb_ids, batch_count, Returned s1)
      | ResultSet pdb_ids =>
          let all_pdb_ids' := (all_pdb_ids ++ pdb_ids)%list in
          let start' := start + 100 in
          if decide ((batch_count + 1) * batch_size ≤ Z.of_nat (length all_pdb_ids')) then
            match save_batch_ids all_pdb_ids' batch_count batch_size s1 with
            | Returned s2 =>
                fetch_pages fuel' cutoff_date batch_size all_pdb_ids' start'
                  (batch_count + 1) s2
            | Raised e s2 => Some (all_pdb_ids', batch_count, Raised e s2)
            end
          else
            fetch_pages fuel' cutoff_date batch_size all_pdb_ids' start' batch_count s1
      end
  end.

(** [fetch_pdb_ids(cutoff_date, batch_size)]: the identifiers found and how
    the call ended. *)
Definition fetch_pdb_ids (fuel : nat) (cutoff_date : string) (batch_size : Z)
    (s : State) : option (list string * outcome) :=
  match fetch_pages fuel cutoff_date batch_size [] 0 0 s with
  | None => None
  | Some (all_pdb_ids, batch_count, Raised e s') => Some (all_pdb_ids, Raised e s')
  | Some (all_pdb_ids, batch_count, Returned s') =>
      if decide (batch_count * batch_size < Z.of_nat (length all_pdb_ids)) then
        Some (all_pdb_ids, save_batch_ids all_pdb_ids batch_count batch_size s')
      else Some (all_pdb_ids, Returned s')
  end.

(** [main]: a fresh downloader, the search with the default cutoff date
    and batch size, then the downloads; the list [fetch_pdb_ids] returns
    is not used. *)
Definition main (fuel_search fuel_retry : nat) (s : State) : option outcome :=
  let s0 := set_failed_downloads [] s in
  match fetch_pdb_ids fuel_search "2020-01-01" 1000 s0 with
  | None => None
  | Some (_, Raised e s1) => Some (Raised e s1)
  | Some (_, Returned s1) => download_structures fuel_retry s1
  end.
End methods.
End PDBDownloader.

(** ** [class SabdabDownloader] (download_sabdab.py) *)

Module SabdabDownloader.
Definition output_dir : string := "datasets/raw/sabdab".
Definition ids_dir : string := "datasets/raw/sabdab_ids".
Definition MAX_RETRY_ATTEMPTS : Z := 3.
Definition RETRY_WAIT_TIME : Z := 300.
Definition max_workers : Z := 8.
Definition failure_file : string := path_join "datasets" "failed_downloads_sabdab.txt".

(** [fetch_pdb_ids]: the first column of every row of the summary file
    but the header.  [list(set(...))] removes duplicates and leaves the
    order unspecified. *)
Definition fetch_pdb_ids (s : State) : result (list string) :=
  let tsv_file := path_join ids_dir "sabdab_summary_all.tsv" in
  if negb (path_exists tsv_file s) then
    Raise (FileNotFoundError ("Summary file not found: " +:+ tsv_file))
  else
    content ← read_text tsv_file s;
    let lines := readlines content in
    let pdb_ids :=
      (λ line, let columns := split (ascii_of_nat 9) (strip line) in
               default EmptyString (head columns)) <$> drop 1 lines in
    Ok (remove_dups pdb_ids).

Section methods.
Context (env : Env).

Definition download_single_file (pdb_id : string) (s : State) : bool * string * State :=
  let output_file := path_join output_dir (pdb_id +:+ ".pdb") in
  if path_exists output_file s then
    (true, "Already downloaded " +:+ pdb_id +:+ ".pdb", s)
  else
    let url := "https://opig.stats.ox.ac.uk/webapps/sabdab-sabpred/sabdab/pdb/" +:+ pdb_id in
    match requests_get env url s with
    | (Response status_code text, s1) =>
        if decide (status_code = 200) then
          match write_file env output_file text s1 with
          | (None, s2) => (true, "Successfully downloaded " +:+ pdb_id +:+ ".pdb", s2)
          | (Some fault, s2) =>
              (false, "Error downloading " +:+ pdb_id +:+ ".pdb: " +:+ fault_text fault, s2)
          end
        else
          (false, "Failed to download " +:+ pdb_id +:+ ".pdb, status code: "
                  +:+ pretty status_code, s1)
    | (Raises e, s1) =>
        (false, "Error downloading " +:+ pdb_id +:+ ".pdb: " +:+ e, s1)
    end.

Definition record_failure := Engine.record_failure.
Definition process_batch := Engine.process_batch env download_single_file.
Definition retry_candidates :=
  Engine.retry_candidates MAX_RETRY_ATTEMPTS RETRY_WAIT_TIME.
Definition cleanup :=
  Engine.cleanup output_dir ".pdb" MAX_RETRY_ATTEMPTS.
Definition retry_failed_downloads :=
  Engine.retry_failed_downloads env output_dir ".pdb"
    MAX_RETRY_ATTEMPTS RETRY_WAIT_TIME download_single_file.
Definition save_failure_summary := Engine.save_failure_summary env failure_file.

Definition download_structures (fuel : nat) (pdb_ids : list string) (s : State)
    : option outcome :=
  Engine.finish env output_dir ".pdb" failure_file
    MAX_RETRY_ATTEMPTS RETRY_WAIT_TIME download_single_file fuel
    (process_batch pdb_ids s).

(** [main]: a fresh downloader (empty ledger), the identifiers, the
    downloads. *)
Definition main (fuel : nat) (s : State) : option outcome :=
  let s0 := set_failed_downloads [] s in
  match fetch_pdb_ids s0 with
  | Raise e => Some (Raised e s0)
  | Ok pdb_ids => download_structures fuel pdb_ids s0
  end.
End methods.
End SabdabDownloader.


(** ** Both downloaders at once *)

Inductive downloader := PDB | SAbDab.

Definition output_dir (which : downloader) : string :=
  match which with
  | PDB => PDBDownloader.output_dir
  | SAbDab => SabdabDownloader.output_dir
  end.

Definition extension (which : downloader) : string :=
  match which with
  | PDB => ".cif"
  | SAbDab => ".pdb"
  end.

Definition failure_file (which : downloader) : string :=
  match which with
  | PDB => PDBDownloader.failure_file
  | SAbDab => SabdabDownloader.failure_file
  end.

Definition download_single_file (which : downloader) (env : Env)
    : string → State → bool * string * State :=
  match which with
  | PDB => PDBDownloader.download_single_file env
  | SAbDab => SabdabDownloader.download_single_file env
  end.

(** The URL [_download_single_file] requests for an identifier. *)
Definition url (which : downloader) (id : string) : string :=
  match which with
  | PDB => "https://files.rcsb.org/download/" +:+ id +:+ ".cif"
  | SAbDab => "https://opig.stats.ox.ac.uk/webapps/sabdab-sabpred/sabdab/pdb/" +:+ id
  end.

(** The file [_download_single_file] writes for an identifier. *)
Definition artifact (which : downloader) (id : string) : string :=
  Engine.artifact (output_dir which) (extension which) id.

Definition process_batch (which : downloader) (env : Env) : list string → State → State :=
  Engine.process_batch env (download_single_file which env).

Definition retry_failed_downloads (which : downloader) (env : Env)
    : nat → State → option outcome :=
  Engine.retry_failed_downloads env (output_dir which) (extension which) 3 300
    (download_single_file which env).

(** ** Vocabulary of the statements *)

(** The reply the environment gives to the next request for [url]. *)
Definition reply_to (env : Env) (url : string) (s : State) : Reply :=
  remote env url (length (filter (λ u, u = url) (requests s))).

(** Whether the clean-up after a round that retried [retry_pdb_ids] deletes
    the record of [k]. *)
Definition prunes (output_dir extension : string) (cap : Z)
    (retry_pdb_ids : list string) (s : State) (k : string) : bool :=
  bool_decide (k ∈ retry_pdb_ids) &&
  match Dict.get k (failed_downloads s) with
  | Some f => bool_decide (cap ≤ attempt f) ||
              path_exists (Engine.artifact output_dir extension k) s
  | None => false
  end.

(** The outcomes [(identifier, success, message)] of the fetches of a batch,
    in the order in which [_process_batch] handles them. *)
Fixpoint outcomes (fetch : string → State → bool * string * State)
    (order : list string) (s : State) : list (string * bool * string) :=
  match order with
  | [] => []
  | id :: rest =>
      (id, (fetch id s).1.1, (fetch id s).1.2)
      :: outcomes fetch rest (Engine.process_one fetch s id)
  end.

(** How many of the outcomes are failures of [id]. *)
Definition failures_of (id : string) (os : list (string * bool * string)) : nat :=
  length (filter (λ o, o.1.1 = id ∧ o.1.2 = false) os).

(** The attempt count the ledger holds for [id], 0 when it holds none. *)
Definition attempt_of (id : string) (d : list (string * DownloadFailure)) : Z :=
  from_option attempt 0 (Dict.get id d).

(** The retries a record has left before it reaches the cap. *)
Definition remaining (cap : Z) (o : option DownloadFailure) : nat :=
  match o with
  | Some f => Z.to_nat (cap - attempt f)
  | None => 0
  end.

(** The retries left to the identifiers [K] together. *)
Definition budget (cap : Z) (K : list string) (d : list (string * DownloadFailure)) : nat :=
  sum_list ((λ k, remaining cap (Dict.get k d)) <$> K).

(** A ledger as [_retry_failed_downloads] can drain it: a dictionary all of
    whose records are below the cap. *)
Definition drainable (cap : Z) (d : list (string * DownloadFailure)) : Prop :=
  Dict.wf d ∧ ∀ k f, Dict.get k d = Some f → attempt f < cap.

(** The state after [j] rounds of [time.sleep(60)]. *)
Definition sleeps (j : nat) (s : State) : State :=
  Nat.iter j (sleep 60) s.

(** Whether the character [c] occurs in [s]. *)
Fixpoint has_char (c : ascii) (s : string) : bool :=
  match s with
  | EmptyString => false
  | String c' s' => bool_decide (c' = c) || has_char c s'
  end.

(** Whether [s] contains a line break (LF or CR). *)
Definition has_newline (s : string) : bool :=
  has_char (ascii_of_nat 10) s || has_char (ascii_of_nat 13) s.


(** The file [_save_batch_ids] writes for the batch of index [i]. *)
Definition batch_path (i : Z) : string :=
  path_join PDBDownloader.ids_dir ("pdb_ids_batch_" +:+ pretty i +:+ ".txt").

(** The identifiers of the batch of index [i], for batches of [batch_size]. *)
Definition batch_of (all_ids : list string) (batch_size i : Z) : list string :=
  py_slice all_ids (i * batch_size) ((i + 1) * batch_size).

(** What holds between two pages of [fetch_pdb_ids]: the batches below
    [batch_count] are complete and saved, the current one is not full. *)
Definition batches_saved (batch_size : Z) (all_ids : list string) (batch_count : Z)
    (s : State) : Prop :=
  0 ≤ batch_count ∧
  batch_count * batch_size ≤ Z.of_nat (length all_ids) < (batch_count + 1) * batch_size ∧
  ∀ i, 0 ≤ i < batch_count →
       files s !! batch_path i = Some (str_join LF (batch_of all_ids batch_size i)).


(** ** Sample environments and states *)

(** A server that answers every request with status 404, a disk without
    faults and a pool that completes its tasks in the order of submission. *)
Definition env_404 : Env :=
  mkEnv (λ _ _, Response 404 "") (λ _ _, 1) (λ _ _, None) (λ l, l).

(** The same with a server that answers every request with status 200. *)
Definition env_200 : Env :=
  mkEnv (λ _ _, Response 200 "data_1ABC") (λ _ _, 1) (λ _ _, None) (λ l, l).

Definition empty_state : State := mkState ∅ 0 [] [].

Definition state_of_files (fs : gmap string string) : State := mkState fs 0 [] [].

(** A ledger with one record, last failed at time [t]. *)
Definition one_failure_at (t : Z) : list (string * DownloadFailure) :=
  [("1ABC", mkDownloadFailure "1ABC" "Failed to download 1ABC.cif, status code: 404" 3 t)].

Definition one_failure : list (string * DownloadFailure) := one_failure_at 7.

(** One batch file that lists 1ABC, and nothing else on disk. *)
Definition one_id_listed : State :=
  state_of_files {[ "datasets/raw/pdb_ids/pdb_ids_batch_0.txt" := "1ABC" ]}.

(** One batch file that lists 1ABC three times. *)
Definition one_id_listed_thrice : State :=
  state_of_files
    {[ "datasets/raw/pdb_ids/pdb_ids_batch_0.txt" := "1ABC" +:+ LF +:+ "1ABC" +:+ LF +:+ "1ABC" ]}.

(** A ledger with one record after a first failure at time 0. *)
Definition first_failure : list (string * DownloadFailure) :=
  [("1ABC", mkDownloadFailure "1ABC" "Failed to download 1ABC.cif, status code: 404" 1 0)].

(** The state a run that returns normally ends in, [dflt] otherwise. *)
Definition returned_state (dflt : State) (r : option outcome) : State :=
  match r with
  | Some (Returned s) => s
  | _ => dflt
  end.

(** A server that answers 200 and a disk on which every write fails after
    the file has been created and the first four bytes have been written. *)
Definition env_disk_full : Env :=
  mkEnv (λ _ _, Response 200 "data_1ABC") (λ _ _, 1)
        (λ _ _, Some (WriteFails "No space left on device" "data")) (λ l, l).



(** A search service with two pages, of three and one identifiers. *)
Definition two_pages : string → Z → Z → SearchReply :=
  λ _ start _,
    if decide (start = 0) then ResultSet ["1ABC"; "2XYZ"; "3DEF"]
    else if decide (start = 100) then ResultSet ["4GHI"]
    else ResultSet [].

(** A search service that is down. *)
Definition search_down : string → Z → Z → SearchReply :=
  λ _ _ _, SearchRaises "Connection refused".

(** * Properties *)

(** ** Dictionaries *)

Module DictFacts.
Section facts.
Context {V : Type}.
Implicit Types (d : list (string * V)) (k : string) (v : V).

Lemma get_None d k : Dict.get k d = None ↔ k ∉ Dict.keys d.
Proof.
  induction d as [|[k' v'] d IH]; simpl.
  - split; [intros _; apply not_elem_of_nil | done].
  - rewrite not_elem_of_cons. destruct (decide (k' = k)) as [->|Hne].
    + split; [done | intros [? _]; done].
    + rewrite IH. split; [intros ?; split; [congruence | done] | intros [_ ?]; done].
Qed.

Lemma get_Some_elem_of d k v : Dict.get k d = Some v → (k, v) ∈ d.
Proof.
  induction d as [|[k' v'] d IH]; simpl; [done|].
  destruct (decide (k' = k)) as [->|Hne].
  - intros [= ->]. apply elem_of_cons; by left.
  - intros H. apply elem_of_cons; right; auto.
Qed.

Lemma elem_of_get d k v : Dict.wf d → (k, v) ∈ d → Dict.get k d = Some v.
Proof.
  unfold Dict.wf, Dict.keys.
  induction d as [|[k' v'] d IH]; simpl; intros Hwf Hin.
  - by apply elem_of_nil in Hin.
  - apply NoDup_cons in Hwf as [Hnotin Hwf].
    apply elem_of_cons in Hin as [[= <- <-]|Hin].
    + by rewrite decide_True.
    + destruct (decide (k' = k)) as [->|Hne]; [|by apply IH].
      exfalso. apply Hnotin. apply list_elem_of_fmap. by exists (k, v).
Qed.

Lemma keys_alter f d k : Dict.keys (Dict.alter f k d) = Dict.keys d.
Proof.
  unfold Dict.keys. induction d as [|[k' v'] d IH]; [done|].
  cbn [Dict.alter]. destruct (decide (k' = k)); [done|].
  rewrite !fmap_cons. by rewrite IH.
Qed.

Lemma get_alter f d k k' :
  Dict.get k' (Dict.alter f k d) =
  if decide (k = k') then f <$> Dict.get k' d else Dict.get k' d.
Proof.
  induction d as [|[k0 v0] d IH]; simpl.
  - by destruct (decide (k = k')).
  - destruct (decide (k0 = k)) as [->|Hne]; simpl.
    + destruct (decide (k = k')); by simpl.
    + destruct (decide (k0 = k')) as [->|Hne'].
      * by rewrite decide_False.
      * apply IH.
Qed.

Lemma get_set d k v k' :
  Dict.get k' (Dict.set k v d) =
  if decide (k = k') then Some v else Dict.get k' d.
Proof.
  induction d as [|[k0 v0] d IH]; simpl.
  - by destruct (decide (k = k')).
  - destruct (decide (k0 = k)) as [->|Hne]; simpl.
    + by destruct (decide (k = k')).
    + destruct (decide (k0 = k')) as [->|Hne'].
      * by rewrite decide_False.
      * apply IH.
Qed.

Lemma get_del d k k' :
  Dict.get k' (Dict.del k d) =
  if decide (k = k') then None else Dict.get k' d.
Proof.
  induction d as [|[k0 v0] d IH]; simpl.
  - by destruct (decide (k = k')).
  - destruct (decide (k0 = k)) as [->|Hne]; simpl.
    + rewrite IH. by destruct (decide (k = k')).
    + destruct (decide (k0 = k')) as [->|Hne'].
      * by rewrite decide_False.
      * apply IH.
Qed.

Lemma del_filter d k : Dict.del k d = filter (λ kv, kv.1 ≠ k) d.
Proof.
  induction d as [|[k0 v0] d IH]; simpl; [done|].
  destruct (decide (k0 = k)) as [->|Hne].
  - rewrite filter_cons_False; [done | simpl; by intros ?].
  - rewrite filter_cons_True by done. by rewrite IH.
Qed.

Lemma del_notin d k : k ∉ Dict.keys d → Dict.del k d = d.
Proof.
  unfold Dict.keys. induction d as [|[k0 v0] d IH]; simpl; [done|].
  rewrite not_elem_of_cons. intros [Hne Hnotin].
  rewrite decide_False by done. by rewrite IH.
Qed.

Lemma keys_del_subseteq d k : Dict.keys (Dict.del k d) ⊆ Dict.keys d.
Proof.
  unfold Dict.keys. rewrite del_filter. intros x Hx.
  apply list_elem_of_fmap in Hx as (kv & -> & Hkv).
  apply list_elem_of_filter in Hkv as [_ Hkv].
  apply list_elem_of_fmap. by exists kv.
Qed.

Lemma wf_del d k : Dict.wf d → Dict.wf (Dict.del k d).
Proof.
  unfold Dict.wf, Dict.keys. induction d as [|[k0 v0] d IH]; simpl; [done|].
  intros [Hnotin Hwf]%NoDup_cons.
  destruct (decide (k0 = k)); [by apply IH|].
  simpl. apply NoDup_cons. split; [|by apply IH].
  intros Hin. apply Hnotin. by apply (keys_del_subseteq d k).
Qed.

Lemma wf_alter f d k : Dict.wf d → Dict.wf (Dict.alter f k d).
Proof. unfold Dict.wf. by rewrite keys_alter. Qed.

Lemma keys_set d k v :
  Dict.keys (Dict.set k v d) =
  if decide (k ∈ Dict.keys d) then Dict.keys d else (Dict.keys d ++ [k])%list.
Proof.
  unfold Dict.keys. induction d as [|[k0 v0] d IH].
  - rewrite decide_False; [done | apply not_elem_of_nil].
  - cbn [Dict.set]. rewrite !fmap_cons. cbn [fst].
    destruct (decide (k0 = k)) as [->|Hne].
    + rewrite decide_True; [done | apply elem_of_cons; by left].
    + rewrite fmap_cons, IH. cbn [fst].
      destruct (decide (k ∈ d.*1)) as [Hin|Hnotin].
      * rewrite decide_True; [done | apply elem_of_cons; by right].
      * rewrite decide_False; [done|].
        rewrite not_elem_of_cons. split; [congruence | done].
Qed.

Lemma wf_set d k v : Dict.wf d → Dict.wf (Dict.set k v d).
Proof.
  unfold Dict.wf. rewrite keys_set. intros Hwf.
  destruct (decide (k ∈ Dict.keys d)) as [Hin|Hnotin]; [done|].
  apply NoDup_app. split; [done|]. split; [|apply NoDup_singleton].
  intros x Hx Hx'. apply list_elem_of_singleton in Hx'. by subst.
Qed.
End facts.
End DictFacts.

(** ** The failure ledger *)

Lemma record_failure_frame id msg s :
  files (Engine.record_failure id msg s) = files s ∧
  clock (Engine.record_failure id msg s) = clock s ∧
  requests (Engine.record_failure id msg s) = requests s.
Proof. unfold Engine.record_failure. by destruct (decide _). Qed.

Lemma record_failure_get id msg s k :
  Dict.get k (failed_downloads (Engine.record_failure id msg s)) =
  if decide (id = k) then
    match Dict.get k (failed_downloads s) with
    | Some f => Some (mkDownloadFailure (pdb_id f) msg (attempt f + 1) (clock s))
    | None => Some (mkDownloadFailure k msg 1 (clock s))
    end
  else Dict.get k (failed_downloads s).
Proof.
  unfold Engine.record_failure.
  destruct (decide (id ∈ Dict.keys (failed_downloads s))) as [Hin|Hnotin]; simpl.
  - rewrite !DictFacts.get_alter. destruct (decide (id = k)) as [->|]; [|done].
    destruct (Dict.get k (failed_downloads s)) as [f|] eqn:Hget; [done|].
    by apply DictFacts.get_None in Hget.
  - rewrite DictFacts.get_set. destruct (decide (id = k)) as [->|]; [|done].
    apply DictFacts.get_None in Hnotin. by rewrite Hnotin.
Qed.

Lemma record_failure_keys id msg s :
  id ∈ Dict.keys (failed_downloads s) →
  Dict.keys (failed_downloads (Engine.record_failure id msg s)) =
  Dict.keys (failed_downloads s).
Proof.
  intros Hin. unfold Engine.record_failure. rewrite decide_True by done.
  simpl. by rewrite !DictFacts.keys_alter.
Qed.

Lemma record_failure_wf id msg s :
  Dict.wf (failed_downloads s) →
  Dict.wf (failed_downloads (Engine.record_failure id msg s)).
Proof.
  intros Hwf. unfold Engine.record_failure. destruct (decide _); simpl.
  - by do 3 apply DictFacts.wf_alter.
  - by apply DictFacts.wf_set.
Qed.

(** C4. Recording a failure for an identifier that is in the ledger adds
    one to its attempt counter and overwrites its message and its time
    stamp with the given message and the current time; for an identifier
    that is not in the ledger it inserts a record with attempt 1.  The
    records of all other identifiers, the files, the clock and the request
    log are left as they were. *)
Theorem record_failure_spec (s : State) (id msg : string) :
  let s' := Engine.record_failure id msg s in
  match Dict.get id (failed_downloads s) with
  | Some f =>
      Dict.get id (failed_downloads s') =
        Some (mkDownloadFailure (pdb_id f) msg (attempt f + 1) (clock s))
  | None =>
      Dict.get id (failed_downloads s') = Some (mkDownloadFailure id msg 1 (clock s))
  end
  ∧ (∀ id', id' ≠ id →
       Dict.get id' (failed_downloads s') = Dict.get id' (failed_downloads s))
  ∧ files s' = files s ∧ clock s' = clock s ∧ requests s' = requests s.
Proof.
  intros s'. subst s'. split; [|split].
  - rewrite record_failure_get, decide_True by done.
    by destruct (Dict.get id (failed_downloads s)).
  - intros id' Hne. rewrite record_failure_get. by rewrite decide_False.
  - apply record_failure_frame.
Qed.

(** C5. The identifiers selected for a retry are exactly the keys of the
    ledger whose record has an attempt count below the cap and whose last
    failure is at least the cooldown old. *)
Theorem retry_candidates_spec (cap cooldown now : Z)
    (d : list (string * DownloadFailure)) (id : string) :
  id ∈ Engine.retry_candidates cap cooldown now d ↔
  ∃ f, (id, f) ∈ d ∧ attempt f < cap ∧ cooldown ≤ now - timestamp f.
Proof.
  unfold Engine.retry_candidates. rewrite list_elem_of_fmap. split.
  - intros ([k f] & -> & Hin). apply list_elem_of_filter in Hin as [[Ha Ht] Hin].
    exists f. by simpl in *.
  - intros (f & Hin & Ha & Ht). exists (id, f). split; [done|].
    apply list_elem_of_filter. by simpl.
Qed.

Lemma retry_candidates_elem cap cooldown now d id :
  id ∈ Engine.retry_candidates cap cooldown now d ↔
  ∃ f, (id, f) ∈ d ∧ attempt f < cap ∧ cooldown ≤ now - timestamp f.
Proof.
  unfold Engine.retry_candidates. rewrite list_elem_of_fmap. split.
  - intros ([k f] & -> & [Hp Hin]%list_elem_of_filter). by exists f.
  - intros (f & Hin & Hp). exists (id, f). split; [done|].
    by apply list_elem_of_filter.
Qed.

Lemma retry_candidates_keys cap cooldown now d :
  Engine.retry_candidates cap cooldown now d ⊆ Dict.keys d.
Proof.
  intros id (f & Hin & _)%retry_candidates_elem.
  apply list_elem_of_fmap. by exists (id, f).
Qed.

Lemma retry_candidates_NoDup cap cooldown now d :
  Dict.wf d → NoDup (Engine.retry_candidates cap cooldown now d).
Proof.
  unfold Dict.wf, Dict.keys, Engine.retry_candidates.
  induction d as [|[k f] d IH]; [intros _; apply NoDup_nil_2|].
  rewrite fmap_cons. intros [Hnotin Hwf]%NoDup_cons.
  destruct (decide (attempt f < cap ∧ cooldown ≤ now - timestamp f)) as [Hp|Hp].
  - rewrite filter_cons_True by done. rewrite fmap_cons. apply NoDup_cons.
    split; [|by apply IH]. intros Hin. apply Hnotin.
    apply list_elem_of_fmap in Hin as (kv & -> & Hkv).
    apply list_elem_of_filter in Hkv as [_ Hkv].
    apply list_elem_of_fmap. by exists kv.
  - rewrite filter_cons_False by done. by apply IH.
Qed.

(** ** The clean-up after a retry round *)

Section cleanup_facts.
Context (output_dir extension : string) (cap : Z).

Local Abbreviation artifact := (Engine.artifact output_dir extension).
Local Abbreviation cleanup_entry := (Engine.cleanup_entry output_dir extension cap).
Local Abbreviation cleanup_loop := (Engine.cleanup_loop output_dir extension cap).
Local Abbreviation cleanup := (Engine.cleanup output_dir extension cap).

Local Abbreviation prunes := (prunes output_dir extension cap).

Lemma cleanup_entry_present retry s k :
  k ∈ Dict.keys (failed_downloads s) →
  cleanup_entry retry s k =
  Returned (if prunes retry s k
            then set_failed_downloads (Dict.del k (failed_downloads s)) s else s).
Proof.
  intros Hin. unfold Engine.cleanup_entry, prunes.
  destruct (decide (k ∈ retry)) as [Hr|Hr].
  - rewrite (bool_decide_eq_true_2 _ Hr). simpl.
    destruct (Dict.get k (failed_downloads s)) as [f|] eqn:Hget.
    + destruct (decide (cap ≤ attempt f)) as [Hc|Hc].
      * by rewrite (bool_decide_eq_true_2 _ Hc).
      * rewrite (bool_decide_eq_false_2 _ Hc). simpl.
        by destruct (path_exists _ s).
    + by apply DictFacts.get_None in Hget.
  - by rewrite (bool_decide_eq_false_2 _ Hr).
Qed.

Lemma cleanup_loop_spec retry snapshot s :
  NoDup snapshot →
  snapshot ⊆ Dict.keys (failed_downloads s) →
  ∃ s', cleanup_loop retry snapshot s = Returned s' ∧
        files s' = files s ∧ clock s' = clock s ∧ requests s' = requests s ∧
        (Dict.wf (failed_downloads s) → Dict.wf (failed_downloads s')) ∧
        ∀ k, Dict.get k (failed_downloads s') =
             if bool_decide (k ∈ snapshot) && prunes retry s k
             then None else Dict.get k (failed_downloads s).
Proof.
  revert s. induction snapshot as [|id rest IH]; intros s Hnd Hsub.
  - exists s. by repeat split.
  - apply NoDup_cons in Hnd as [Hnotin Hnd]. simpl.
    rewrite cleanup_entry_present by (apply Hsub; apply elem_of_cons; by left).
    set (s1 := if prunes retry s id
               then set_failed_downloads (Dict.del id (failed_downloads s)) s else s).
    assert (Hget1 : ∀ k, Dict.get k (failed_downloads s1) =
                         if bool_decide (k = id) && prunes retry s k
                         then None else Dict.get k (failed_downloads s)).
    { intros k. subst s1. destruct (decide (k = id)) as [->|Hne].
      - rewrite (bool_decide_eq_true_2 _ eq_refl). simpl.
        destruct (prunes retry s id); [|done]. simpl.
        by rewrite DictFacts.get_del, decide_True.
      - rewrite (bool_decide_eq_false_2 _ Hne). simpl.
        destruct (prunes retry s id); [|done]. simpl.
        by rewrite DictFacts.get_del, decide_False. }
    assert (Hfiles1 : files s1 = files s ∧ clock s1 = clock s ∧ requests s1 = requests s).
    { subst s1. by destruct (prunes retry s id). }
    assert (Hwf1 : Dict.wf (failed_downloads s) → Dict.wf (failed_downloads s1)).
    { subst s1. destruct (prunes retry s id); [|done]. simpl. apply DictFacts.wf_del. }
    destruct Hfiles1 as (Hf1 & Hc1 & Hr1).
    destruct (IH s1 Hnd) as (s' & Hloop & Hf & Hc & Hr & Hwf & Hget).
    { intros k Hk. apply dec_stable. intros Hk'.
      apply DictFacts.get_None in Hk'. rewrite Hget1 in Hk'.
      rewrite bool_decide_eq_false_2 in Hk' by (intros ->; done). simpl in Hk'.
      apply DictFacts.get_None in Hk'. apply Hk', Hsub, elem_of_cons. by right. }
    exists s'. split; [done|]. split; [congruence|]. split; [congruence|].
    split; [congruence|]. split; [auto|].
    intros k. rewrite Hget, Hget1.
    assert (Hprunes : prunes retry s1 k = prunes retry s k ∨
                      (k = id ∧ prunes retry s k = true)).
    { unfold prunes at 1 2. rewrite Hget1. unfold path_exists. rewrite Hf1.
      destruct (decide (k = id)) as [->|Hne].
      - destruct (prunes retry s id) eqn:Hp; [by right | left].
        by rewrite andb_false_r.
      - left. by rewrite (bool_decide_eq_false_2 _ Hne). }
    destruct (decide (k = id)) as [->|Hne].
    + rewrite (bool_decide_eq_false_2 _ Hnotin).
      rewrite (bool_decide_eq_true_2 (id = id) eq_refl).
      rewrite (bool_decide_eq_true_2 (id ∈ id :: rest)) by (apply elem_of_cons; by left).
      done.
    + rewrite (bool_decide_eq_false_2 (k = id) Hne). simpl.
      destruct Hprunes as [->|[? _]]; [|done].
      destruct (decide (k ∈ rest)) as [Hin|Hnin].
      * rewrite (bool_decide_eq_true_2 _ Hin).
        rewrite (bool_decide_eq_true_2 (k ∈ id :: rest)) by (apply elem_of_cons; by right).
        done.
      * rewrite (bool_decide_eq_false_2 _ Hnin).
        rewrite (bool_decide_eq_false_2 (k ∈ id :: rest)); [done|].
        rewrite not_elem_of_cons. done.
Qed.

Lemma cleanup_returns retry s :
  Dict.wf (failed_downloads s) →
  ∃ s', cleanup retry s = Returned s' ∧
        files s' = files s ∧ clock s' = clock s ∧ requests s' = requests s ∧
        Dict.wf (failed_downloads s') ∧
        ∀ k, Dict.get k (failed_downloads s') =
             if prunes retry s k then None else Dict.get k (failed_downloads s).
Proof.
  intros Hwf. unfold Engine.cleanup.
  destruct (cleanup_loop_spec retry (Dict.keys (failed_downloads s)) s Hwf)
    as (s' & Hloop & Hf & Hc & Hr & Hwf' & Hget); [done|].
  exists s'. repeat (split; [by auto|]). intros k. rewrite Hget.
  destruct (decide (k ∈ Dict.keys (failed_downloads s))) as [Hin|Hnin].
  - by rewrite (bool_decide_eq_true_2 _ Hin).
  - rewrite (bool_decide_eq_false_2 _ Hnin). simpl.
    apply DictFacts.get_None in Hnin. rewrite Hnin. by destruct (prunes retry s k).
Qed.

(** C2. The clean-up after a retry round returns without an exception
    and, for every identifier of the retried subset with a record: the
    record is removed when its attempt count has reached the cap;
    otherwise it is removed when the identifier's output file exists;
    otherwise it stays as it is.  The record of an identifier outside the
    retried subset is unchanged, and so are the files, the clock and the
    request log. *)
Theorem cleanup_spec (retry_pdb_ids : list string) (s : State) :
  Dict.wf (failed_downloads s) →
  ∃ s', cleanup retry_pdb_ids s = Returned s' ∧
    files s' = files s ∧ clock s' = clock s ∧ requests s' = requests s ∧
    (∀ id f, id ∈ retry_pdb_ids → Dict.get id (failed_downloads s) = Some f →
       (cap ≤ attempt f → Dict.get id (failed_downloads s') = None) ∧
       (attempt f < cap → path_exists (artifact id) s = true →
          Dict.get id (failed_downloads s') = None) ∧
       (attempt f < cap → path_exists (artifact id) s = false →
          Dict.get id (failed_downloads s') = Some f)) ∧
    (∀ id, id ∉ retry_pdb_ids →
       Dict.get id (failed_downloads s') = Dict.get id (failed_downloads s)).
Proof.
  intros Hwf.
  destruct (cleanup_returns retry_pdb_ids s Hwf) as (s' & Hc & Hf & Hcl & Hr & _ & Hget).
  exists s'. repeat (split; [done|]). split.
  - intros id f Hin Hf0. rewrite Hget. unfold prunes.
    rewrite (bool_decide_eq_true_2 _ Hin), Hf0. simpl. split; [|split].
    + intros Hcap. by rewrite (bool_decide_eq_true_2 _ Hcap).
    + intros _ ->. by rewrite orb_true_r.
    + intros Hlt ->. rewrite bool_decide_eq_false_2 by lia. done.
  - intros id Hnin. rewrite Hget. unfold prunes.
    by rewrite (bool_decide_eq_false_2 _ Hnin).
Qed.
End cleanup_facts.

Lemma cleanup_spec_witness :
  let s := mkState ∅ 9 [] one_failure in
  ∃ s', Engine.cleanup "datasets/raw/pdb" ".cif" 3 ["1ABC"] s = Returned s' ∧
    files s' = files s ∧ clock s' = clock s ∧ requests s' = requests s ∧
    (∀ id f, id ∈ ["1ABC"] → Dict.get id (failed_downloads s) = Some f →
       (3 ≤ attempt f → Dict.get id (failed_downloads s') = None) ∧
       (attempt f < 3 →
          path_exists (Engine.artifact "datasets/raw/pdb" ".cif" id) s = true →
          Dict.get id (failed_downloads s') = None) ∧
       (attempt f < 3 →
          path_exists (Engine.artifact "datasets/raw/pdb" ".cif" id) s = false →
          Dict.get id (failed_downloads s') = Some f)) ∧
    (∀ id, id ∉ ["1ABC"] →
       Dict.get id (failed_downloads s') = Dict.get id (failed_downloads s)).
Proof.
  intros s. apply (cleanup_spec "datasets/raw/pdb" ".cif" 3 ["1ABC"] s).
  apply (NoDup_singleton "1ABC").
Defined.

(** ** Files *)

Lemma path_exists_insert p q data s :
  path_exists p s = true →
  path_exists p (set_files (<[q := data]> (files s)) s) = true.
Proof.
  unfold path_exists. rewrite !bool_decide_eq_true. simpl.
  intros Hp. destruct (decide (q = p)) as [->|Hne].
  - rewrite lookup_insert_eq. by eexists.
  - by rewrite lookup_insert_ne.
Qed.

Lemma path_exists_insert_eq p data s :
  path_exists p (set_files (<[p := data]> (files s)) s) = true.
Proof.
  unfold path_exists. rewrite bool_decide_eq_true. simpl.
  rewrite lookup_insert_eq. by eexists.
Qed.

Lemma write_file_frame env path data s :
  clock (write_file env path data s).2 = clock s ∧
  requests (write_file env path data s).2 = requests s ∧
  failed_downloads (write_file env path data s).2 = failed_downloads s.
Proof.
  unfold write_file. by destruct (storage env path _) as [[?|??]|].
Qed.

Lemma write_file_keeps env path data s p :
  path_exists p s = true → path_exists p (write_file env path data s).2 = true.
Proof.
  unfold write_file. intros Hp.
  destruct (storage env path _) as [[?|??]|]; simpl; [done| |];
    by apply path_exists_insert.
Qed.

Lemma write_file_ok env path data s s' :
  write_file env path data s = (None, s') →
  files s' = <[path := data]> (files s).
Proof.
  unfold write_file.
  destruct (storage env path _) as [[?|??]|]; intros [= <-]; done.
Qed.

(** ** [_download_single_file] *)

Module PDBFacts.
Section facts.
Context (env : Env).
Local Abbreviation fetch := (PDBDownloader.download_single_file env).
Local Abbreviation artifact :=
  (Engine.artifact PDBDownloader.output_dir ".cif").

Lemma pdb_fetch_ledger id s : failed_downloads (fetch id s).2 = failed_downloads s.
Proof.
  unfold PDBDownloader.download_single_file, requests_get.
  destruct (remote env _ _) as [e|code body]; [done|].
  destruct (decide (code = 200)); [|done].
  match goal with |- context [write_file env ?p ?d ?s] =>
    pose proof (write_file_frame env p d s) as (_ & _ & Hl);
    destruct (write_file env p d s) as [[fault|] s2] end; simpl in *; by rewrite Hl.
Qed.

Lemma pdb_fetch_keeps id s p :
  path_exists p s = true → path_exists p (fetch id s).2 = true.
Proof.
  intros Hp. unfold PDBDownloader.download_single_file, requests_get.
  destruct (remote env _ _) as [e|code body]; [done|].
  destruct (decide (code = 200)); [|done].
  match goal with |- context [write_file env ?p0 ?d ?s0] =>
    pose proof (write_file_keeps env p0 d s0 p Hp) as Hk;
    destruct (write_file env p0 d s0) as [[fault|] s2] end; done.
Qed.

Lemma pdb_fetch_success id s :
  (fetch id s).1.1 = true → path_exists (artifact id) (fetch id s).2 = true.
Proof.
  unfold PDBDownloader.download_single_file, requests_get.
  destruct (remote env _ _) as [e|code body]; [done|].
  destruct (decide (code = 200)); [|done].
  match goal with |- context [write_file env ?p0 ?d ?s0] =>
    pose proof (write_file_ok env p0 d s0) as Hok;
    destruct (write_file env p0 d s0) as [[fault|] s2] end; [done|].
  intros _. simpl. unfold path_exists. rewrite (Hok s2 eq_refl).
  apply bool_decide_eq_true. unfold Engine.artifact.
  rewrite lookup_insert_eq. by eexists.
Qed.

Lemma pdb_fetch_requests id s :
  requests (fetch id s).2 = (requests s ++ [url PDB id])%list.
Proof.
  unfold PDBDownloader.download_single_file, requests_get, url.
  destruct (remote env _ _) as [e|code body]; [done|].
  destruct (decide (code = 200)); [|done].
  match goal with |- context [write_file env ?p ?d ?s] =>
    pose proof (write_file_frame env p d s) as (_ & Hr & _);
    destruct (write_file env p d s) as [[fault|] s2] end; simpl in *; by rewrite Hr.
Qed.
End facts.
End PDBFacts.

Module SabdabFacts.
Section facts.
Context (env : Env).
Local Abbreviation fetch := (SabdabDownloader.download_single_file env).
Local Abbreviation artifact :=
  (Engine.artifact SabdabDownloader.output_dir ".pdb").

Lemma sabdab_fetch_present id s :
  path_exists (artifact id) s = true →
  fetch id s = (true, "Already downloaded " +:+ id +:+ ".pdb", s).
Proof.
  unfold SabdabDownloader.download_single_file, Engine.artifact. by intros ->.
Qed.

Lemma sabdab_fetch_ledger id s : failed_downloads (fetch id s).2 = failed_downloads s.
Proof.
  unfold SabdabDownloader.download_single_file, requests_get.
  destruct (path_exists _ s); [done|].
  destruct (remote env _ _) as [e|code body]; [done|].
  destruct (decide (code = 200)); [|done].
  match goal with |- context [write_file env ?p ?d ?s] =>
    pose proof (write_file_frame env p d s) as (_ & _ & Hl);
    destruct (write_file env p d s) as [[fault|] s2] end; simpl in *; by rewrite Hl.
Qed.

Lemma sabdab_fetch_keeps id s p :
  path_exists p s = true → path_exists p (fetch id s).2 = true.
Proof.
  intros Hp. unfold SabdabDownloader.download_single_file, requests_get.
  destruct (path_exists (path_join _ _) s); [done|].
  destruct (remote env _ _) as [e|code body]; [done|].
  destruct (decide (code = 200)); [|done].
  match goal with |- context [write_file env ?p0 ?d ?s0] =>
    pose proof (write_file_keeps env p0 d s0 p Hp) as Hk;
    destruct (write_file env p0 d s0) as [[fault|] s2] end; done.
Qed.

Lemma sabdab_fetch_success id s :
  (fetch id s).1.1 = true → path_exists (artifact id) (fetch id s).2 = true.
Proof.
  unfold SabdabDownloader.download_single_file, requests_get.
  destruct (path_exists _ s) eqn:Hex; [done|].
  destruct (remote env _ _) as [e|code body]; [done|].
  destruct (decide (code = 200)); [|done].
  match goal with |- context [write_file env ?p0 ?d ?s0] =>
    pose proof (write_file_ok env p0 d s0) as Hok;
    destruct (write_file env p0 d s0) as [[fault|] s2] end; [done|].
  intros _. simpl. unfold path_exists. rewrite (Hok s2 eq_refl).
  apply bool_decide_eq_true. unfold Engine.artifact.
  rewrite lookup_insert_eq. by eexists.
Qed.
End facts.
End SabdabFacts.

(** The methods of the two classes are those of [downloader]. *)

Lemma process_batch_of_class env :
  process_batch PDB env = PDBDownloader.process_batch env ∧
  process_batch SAbDab env = SabdabDownloader.process_batch env.
Proof. done. Qed.

Lemma retry_failed_downloads_of_class env :
  retry_failed_downloads PDB env = PDBDownloader.retry_failed_downloads env ∧
  retry_failed_downloads SAbDab env = SabdabDownloader.retry_failed_downloads env.
Proof. done. Qed.

(** The facts above, for either downloader. *)

Lemma fetch_ledger which env id s :
  failed_downloads (download_single_file which env id s).2 = failed_downloads s.
Proof. destruct which; [apply PDBFacts.pdb_fetch_ledger | apply SabdabFacts.sabdab_fetch_ledger]. Qed.

Lemma fetch_keeps which env id s p :
  path_exists p s = true →
  path_exists p (download_single_file which env id s).2 = true.
Proof. destruct which; [apply PDBFacts.pdb_fetch_keeps | apply SabdabFacts.sabdab_fetch_keeps]. Qed.

Lemma fetch_success which env id s :
  (download_single_file which env id s).1.1 = true →
  path_exists (artifact which id) (download_single_file which env id s).2 = true.
Proof. destruct which; [apply PDBFacts.pdb_fetch_success | apply SabdabFacts.sabdab_fetch_success]. Qed.

(** C10. When [_download_single_file] returns a failure and the reply to
    its request was an exception or a response whose status code is not
    200, the files are exactly what they were before the call, and the
    message contains the identifier followed by the status code or by the
    text of the exception. *)
Theorem download_failure_spec (which : downloader) (env : Env) (id : string)
    (s s' : State) (msg : string) :
  download_single_file which env id s = (false, msg, s') →
  (∀ body, reply_to env (url which id) s ≠ Response 200 body) →
  files s' = files s ∧
  ∃ detail pre mid,
    msg = pre +:+ id +:+ mid +:+ detail ∧
    match reply_to env (url which id) s with
    | Raises e => detail = e
    | Response status_code _ => detail = pretty status_code
    end.
Proof.
  unfold reply_to. destruct which; simpl.
  - unfold PDBDownloader.download_single_file, requests_get.
    destruct (remote env _ _) as [e|code body].
    + intros [= <- <-] _. split; [done|].
      by exists e, "Error downloading ", ".cif: ".
    + destruct (decide (code = 200)) as [->|Hne].
      * intros _ Hno. by destruct (Hno body).
      * intros [= <- <-] _. split; [done|].
        by exists (pretty code), "Failed to download ", ".cif, status code: ".
  - unfold SabdabDownloader.download_single_file, requests_get.
    destruct (path_exists _ s); [done|].
    destruct (remote env _ _) as [e|code body].
    + intros [= <- <-] _. split; [done|].
      by exists e, "Error downloading ", ".pdb: ".
    + destruct (decide (code = 200)) as [->|Hne].
      * intros _ Hno. by destruct (Hno body).
      * intros [= <- <-] _. split; [done|].
        by exists (pretty code), "Failed to download ", ".pdb, status code: ".
Qed.

Lemma download_failure_spec_witness :
  files (download_single_file PDB env_404 "1ABC" empty_state).2 = files empty_state ∧
  ∃ detail pre mid,
    "Failed to download 1ABC.cif, status code: 404" = pre +:+ "1ABC" +:+ mid +:+ detail ∧
    match reply_to env_404 (url PDB "1ABC") empty_state with
    | Raises e => detail = e
    | Response status_code _ => detail = pretty status_code
    end.
Proof.
  apply (download_failure_spec PDB env_404 "1ABC" empty_state).
  - reflexivity.
  - intros body. vm_compute. discriminate.
Defined.

(** ** The short-circuit on files that exist *)

Lemma process_batch_present env ids s :
  (∀ id, id ∈ ids → path_exists (artifact SAbDab id) s = true) →
  foldl (Engine.process_one (download_single_file SAbDab env)) s ids = s.
Proof.
  induction ids as [|id ids IH]; [done|]. intros Hall. simpl.
  unfold Engine.process_one at 2. simpl.
  rewrite SabdabFacts.sabdab_fetch_present by (apply Hall, elem_of_cons; by left).
  apply IH. intros id' Hin. apply Hall, elem_of_cons. by right.
Qed.

Lemma outcomes_present env ids s :
  (∀ id, id ∈ ids → path_exists (artifact SAbDab id) s = true) →
  Forall (λ o, o.1.2 = true) (outcomes (download_single_file SAbDab env) ids s).
Proof.
  induction ids as [|id ids IH]; [intros _; apply Forall_nil_2|]. intros Hall. simpl.
  assert (Hid : path_exists (artifact SAbDab id) s = true)
    by (apply Hall, elem_of_cons; by left).
  unfold Engine.process_one. simpl.
  rewrite (SabdabFacts.sabdab_fetch_present env id s Hid). simpl.
  apply Forall_cons. split; [done|].
  apply IH. intros id' Hin. apply Hall, elem_of_cons. by right.
Qed.

(** C6, as the code has it.  [SabdabDownloader._download_single_file]
    returns success for an identifier whose output file exists and leaves
    the state, hence the request log, as it is.  A batch over identifiers
    whose output files all exist therefore changes nothing and issues no
    request, all its outcomes are successes, and the same holds for a second
    run over the same identifiers. *)
Theorem sabdab_short_circuit (env : Env) (ids : list string) (s : State) :
  completion env ids ≡ₚ ids →
  (∀ id, id ∈ ids → path_exists (artifact SAbDab id) s = true) →
  (∀ id, id ∈ ids →
     SabdabDownloader.download_single_file env id s =
       (true, "Already downloaded " +:+ id +:+ ".pdb", s)) ∧
  SabdabDownloader.process_batch env ids s = s ∧
  requests (SabdabDownloader.process_batch env ids
              (SabdabDownloader.process_batch env ids s)) = requests s ∧
  Forall (λ o, o.1.2 = true)
    (outcomes (SabdabDownloader.download_single_file env) (completion env ids) s).
Proof.
  intros Hperm Hall.
  assert (Hall' : ∀ id, id ∈ completion env ids →
                        path_exists (artifact SAbDab id) s = true).
  { intros id Hin. apply Hall. by rewrite <- Hperm. }
  assert (Hbatch : SabdabDownloader.process_batch env ids s = s).
  { unfold SabdabDownloader.process_batch, Engine.process_batch.
    by apply (process_batch_present env). }
  split; [|split; [done|split]].
  - intros id Hin. by apply SabdabFacts.sabdab_fetch_present, Hall.
  - by rewrite !Hbatch.
  - by apply (outcomes_present env).
Qed.

Lemma sabdab_short_circuit_witness :
  let s := state_of_files {[ "datasets/raw/sabdab/1ABC.pdb" := "data_1ABC" ]} in
  (∀ id, id ∈ ["1ABC"] →
     SabdabDownloader.download_single_file env_404 id s =
       (true, "Already downloaded " +:+ id +:+ ".pdb", s)) ∧
  SabdabDownloader.process_batch env_404 ["1ABC"] s = s ∧
  requests (SabdabDownloader.process_batch env_404 ["1ABC"]
              (SabdabDownloader.process_batch env_404 ["1ABC"] s)) = requests s ∧
  Forall (λ o, o.1.2 = true)
    (outcomes (SabdabDownloader.download_single_file env_404)
       (completion env_404 ["1ABC"]) s).
Proof.
  intros s. apply (sabdab_short_circuit env_404 ["1ABC"] s).
  - reflexivity.
  - intros id ->%list_elem_of_singleton. reflexivity.
Defined.

(** C6 fails for [PDBDownloader]: with the output file of 1ABC in place,
    its [_download_single_file] still sends a request, and reports a failure
    when the server answers 404. *)
Lemma pdb_no_short_circuit :
  ¬ (∀ (which : downloader) (env : Env) (id : string) (s : State),
       path_exists (artifact which id) s = true →
       (download_single_file which env id s).1.1 = true ∧
       requests (download_single_file which env id s).2 = requests s).
Proof.
  intros H.
  destruct (H PDB env_404 "1ABC"
              (state_of_files {[ "datasets/raw/pdb/1ABC.cif" := "data_1ABC" ]}))
    as [Hsuccess _]; [reflexivity|].
  vm_compute in Hsuccess. discriminate.
Qed.

(** ** [_process_batch] *)

Section batch_facts.
Context (fetch : string → State → bool * string * State).
Hypothesis fetch_frame : ∀ id s, failed_downloads (fetch id s).2 = failed_downloads s.

Local Abbreviation process_one := (Engine.process_one fetch).

Lemma process_one_success id s :
  (fetch id s).1.1 = true →
  failed_downloads (process_one s id) = failed_downloads s.
Proof.
  unfold Engine.process_one. pose proof (fetch_frame id s) as Hl.
  destruct (fetch id s) as [[ok msg] s1]. simpl in *. by intros ->.
Qed.

Lemma process_one_failure id s :
  (fetch id s).1.1 = false →
  process_one s id = Engine.record_failure id (fetch id s).1.2 (fetch id s).2.
Proof.
  unfold Engine.process_one.
  destruct (fetch id s) as [[ok msg] s1]. simpl. by intros ->.
Qed.

Lemma process_one_attempt id s k :
  attempt_of k (failed_downloads (process_one s id)) =
  attempt_of k (failed_downloads s) +
  Z.of_nat (failures_of k [(id, (fetch id s).1.1, (fetch id s).1.2)]).
Proof.
  unfold failures_of, attempt_of.
  destruct ((fetch id s).1.1) eqn:Hok.
  - rewrite process_one_success by done.
    rewrite filter_cons_False by (simpl; intros [_ ?]; done). simpl. lia.
  - rewrite process_one_failure by done. rewrite record_failure_get, fetch_frame.
    destruct (decide (id = k)) as [->|Hne].
    + rewrite filter_cons_True by done. simpl.
      destruct (Dict.get k (failed_downloads s)); simpl; lia.
    + rewrite filter_cons_False by (simpl; intros [? _]; done). simpl. lia.
Qed.

Lemma process_one_get id s k :
  failures_of k [(id, (fetch id s).1.1, (fetch id s).1.2)] = 0%nat →
  Dict.get k (failed_downloads (process_one s id)) = Dict.get k (failed_downloads s).
Proof.
  unfold failures_of. destruct ((fetch id s).1.1) eqn:Hok.
  - intros _. by rewrite process_one_success.
  - destruct (decide (id = k)) as [->|Hne].
    + by rewrite filter_cons_True.
    + intros _. rewrite process_one_failure by done.
      rewrite record_failure_get, fetch_frame. by rewrite decide_False.
Qed.

Lemma failures_of_cons k o os :
  failures_of k (o :: os) = (failures_of k [o] + failures_of k os)%nat.
Proof.
  unfold failures_of.
  destruct (decide (o.1.1 = k ∧ o.1.2 = false)) as [Hp|Hp].
  - rewrite !filter_cons_True by done. by rewrite filter_nil.
  - rewrite !filter_cons_False by done. by rewrite filter_nil.
Qed.

Lemma outcomes_ids order s : (outcomes fetch order s).*1.*1 = order.
Proof.
  revert s. induction order as [|id order IH]; intros s; [done|].
  simpl. by rewrite IH.
Qed.

Lemma foldl_process_one_attempt order s k :
  attempt_of k (failed_downloads (foldl process_one s order)) =
  attempt_of k (failed_downloads s) +
  Z.of_nat (failures_of k (outcomes fetch order s)).
Proof.
  revert s. induction order as [|id order IH]; intros s.
  - unfold failures_of. simpl. lia.
  - simpl. rewrite IH, process_one_attempt.
    rewrite (failures_of_cons k _ (outcomes _ _ _)). lia.
Qed.

Lemma foldl_process_one_get order s k :
  failures_of k (outcomes fetch order s) = 0%nat →
  Dict.get k (failed_downloads (foldl process_one s order)) =
  Dict.get k (failed_downloads s).
Proof.
  revert s. induction order as [|id order IH]; intros s; [done|].
  simpl. rewrite failures_of_cons. intros Hzero.
  rewrite IH by lia. apply process_one_get. lia.
Qed.

Lemma foldl_process_one_all_success order s :
  Forall (λ o, o.1.2 = true) (outcomes fetch order s) →
  failed_downloads (foldl process_one s order) = failed_downloads s.
Proof.
  revert s. induction order as [|id order IH]; intros s; [done|].
  simpl. intros [Hok Hrest]%Forall_cons. simpl in Hok.
  rewrite IH by done. by apply process_one_success.
Qed.
End batch_facts.

(** C7. In a batch run of either downloader every submitted identifier
    yields exactly one outcome, whatever the order of completion.  For every
    identifier the attempt count in the ledger grows by exactly the number
    of its failed fetches (one [_record_failure] per failure); the record of
    an identifier none of whose fetches failed is the one held before the
    batch, and when no fetch fails the ledger is unchanged. *)
Theorem process_batch_spec (which : downloader) (env : Env) (ids : list string)
    (s : State) :
  completion env ids ≡ₚ ids →
  let os := outcomes (download_single_file which env) (completion env ids) s in
  let s' := process_batch which env ids s in
  os.*1.*1 ≡ₚ ids ∧
  (∀ id, attempt_of id (failed_downloads s') =
         attempt_of id (failed_downloads s) + Z.of_nat (failures_of id os)) ∧
  (∀ id, failures_of id os = 0%nat →
         Dict.get id (failed_downloads s') = Dict.get id (failed_downloads s)) ∧
  (Forall (λ o, o.1.2 = true) os → failed_downloads s' = failed_downloads s).
Proof.
  intros Hperm os s'. subst os s'. unfold process_batch, Engine.process_batch.
  pose proof (fetch_ledger which env) as Hframe.
  split; [|split; [|split]].
  - by rewrite outcomes_ids.
  - intros id. by apply foldl_process_one_attempt.
  - intros id. by apply foldl_process_one_get.
  - by apply foldl_process_one_all_success.
Qed.

Lemma process_batch_spec_witness :
  let ids := ["1ABC"; "2XYZ"] in
  let os := outcomes (download_single_file PDB env_404) (completion env_404 ids) empty_state in
  let s' := process_batch PDB env_404 ids empty_state in
  os.*1.*1 ≡ₚ ids ∧
  (∀ id, attempt_of id (failed_downloads s') =
         attempt_of id (failed_downloads empty_state) + Z.of_nat (failures_of id os)) ∧
  (∀ id, failures_of id os = 0%nat →
         Dict.get id (failed_downloads s') = Dict.get id (failed_downloads empty_state)) ∧
  (Forall (λ o, o.1.2 = true) os → failed_downloads s' = failed_downloads empty_state).
Proof.
  apply (process_batch_spec PDB env_404 ["1ABC"; "2XYZ"] empty_state). reflexivity.
Defined.

(** ** [_save_failure_summary] *)

Lemma report_lines d :
  Engine.report d = foldr String.app "" (Engine.report_line <$> d).
Proof. induction d as [|kv d IH]; [done|]. simpl. by rewrite IH. Qed.

(** C8. With an empty ledger [_save_failure_summary] returns at once and
    leaves the state, hence every file, as it is.  With records in the
    ledger and no disk fault it writes the report file of the class, and
    the content is one line per record, in the order of the ledger:
    identifier, TAB, attempt count, TAB, last error message, LF. *)
Theorem save_failure_summary_spec (which : downloader) (env : Env) (s : State) :
  failure_file PDB = "datasets/failed_downloads_pdb_cif.txt" ∧
  failure_file SAbDab = "datasets/failed_downloads_sabdab.txt" ∧
  (failed_downloads s = [] →
     Engine.save_failure_summary env (failure_file which) s = Returned s) ∧
  (failed_downloads s ≠ [] →
   storage env (failure_file which) (length (requests s)) = None →
   let lines :=
     (λ kv, kv.1 +:+ TAB +:+ pretty (attempt kv.2) +:+ TAB +:+ error_msg kv.2 +:+ LF)
       <$> failed_downloads s in
   length lines = length (failed_downloads s) ∧
   Engine.save_failure_summary env (failure_file which) s =
     Returned (set_files (<[failure_file which := foldr String.app "" lines]> (files s)) s)).
Proof.
  split; [by vm_compute|]. split; [by vm_compute|]. split.
  - unfold Engine.save_failure_summary. by intros ->.
  - intros Hne Hdisk lines. subst lines. split; [by rewrite length_fmap|].
    unfold Engine.save_failure_summary, write_file. rewrite Hdisk.
    rewrite report_lines. by destruct (failed_downloads s).
Qed.

Lemma save_failure_summary_spec_witness :
  let s := mkState ∅ 9 [] one_failure in
  Engine.save_failure_summary env_404 (failure_file PDB) s =
    Returned (set_files
      {[ "datasets/failed_downloads_pdb_cif.txt" :=
           "1ABC" +:+ TAB +:+ "3" +:+ TAB
           +:+ "Failed to download 1ABC.cif, status code: 404" +:+ LF ]} s).
Proof.
  intros s.
  destruct (save_failure_summary_spec PDB env_404 s) as (_ & _ & _ & Hwrite).
  destruct Hwrite as [_ Hwrite]; [discriminate | reflexivity |].
  rewrite Hwrite. reflexivity.
Defined.

(** ** [SabdabDownloader.fetch_pdb_ids] and [main] *)

(** C9. When the summary file is missing, [fetch_pdb_ids] raises
    [FileNotFoundError] and [main] ends with that exception, whatever the
    environment: no request has been sent and no file written, the state
    is the one [main] started from with a fresh, empty ledger. *)
Theorem main_without_summary (env : Env) (fuel : nat) (s : State) :
  files s !! "datasets/raw/sabdab_ids/sabdab_summary_all.tsv" = None →
  let e := FileNotFoundError
             "Summary file not found: datasets/raw/sabdab_ids/sabdab_summary_all.tsv" in
  SabdabDownloader.fetch_pdb_ids s = Raise e ∧
  SabdabDownloader.main env fuel s = Some (Raised e (set_failed_downloads [] s)) ∧
  files (set_failed_downloads [] s) = files s ∧
  requests (set_failed_downloads [] s) = requests s.
Proof.
  intros Hmissing e.
  assert (Hfetch : ∀ d, SabdabDownloader.fetch_pdb_ids (set_failed_downloads d s) = Raise e).
  { intros d. unfold SabdabDownloader.fetch_pdb_ids, path_exists.
    change (path_join SabdabDownloader.ids_dir "sabdab_summary_all.tsv")
      with "datasets/raw/sabdab_ids/sabdab_summary_all.tsv".
    simpl files. rewrite Hmissing.
    rewrite bool_decide_eq_false_2 by (by intros [? ?]). done. }
  split; [|split; [|done]].
  - specialize (Hfetch (failed_downloads s)). by destruct s.
  - unfold SabdabDownloader.main. by rewrite Hfetch.
Qed.

Lemma main_without_summary_witness :
  SabdabDownloader.main env_200 5 empty_state =
  Some (Raised (FileNotFoundError
                  "Summary file not found: datasets/raw/sabdab_ids/sabdab_summary_all.tsv")
               empty_state).
Proof.
  apply (main_without_summary env_200 5 empty_state). reflexivity.
Defined.

(** ** [_retry_failed_downloads] *)

Section drain_facts.
Context (env : Env) (output_dir extension : string) (cap cooldown : Z).
Context (fetch : string → State → bool * string * State).

Local Abbreviation drain :=
  (Engine.retry_failed_downloads env output_dir extension cap cooldown fetch).

(** The loop returns only with an empty ledger. *)
Lemma drain_returned fuel s s' :
  drain fuel s = Some (Returned s') → failed_downloads s' = [].
Proof.
  revert s. induction fuel as [|fuel IH]; intros s; simpl.
  - destruct (failed_downloads s) eqn:Hd; [|done]. by intros [= <-].
  - destruct (failed_downloads s) eqn:Hd; [by intros [= <-]|].
    destruct (Engine.retry_candidates _ _ _ _); [apply IH|].
    destruct (Engine.cleanup _ _ _ _ _); [apply IH | done].
Qed.

(** No record is a retry candidate once every record is at the cap. *)
Lemma retry_candidates_exhausted now d :
  Forall (λ kv, cap ≤ attempt kv.2) d →
  Engine.retry_candidates cap cooldown now d = [].
Proof.
  unfold Engine.retry_candidates. induction 1 as [|kv d Hkv _ IH]; [done|].
  rewrite filter_cons_False by (intros [? _]; lia). done.
Qed.

(** A ledger all of whose records are at the cap is never drained: the
    loop sleeps for ever. *)
Lemma drain_stuck fuel s :
  failed_downloads s ≠ [] →
  Forall (λ kv, cap ≤ attempt kv.2) (failed_downloads s) →
  drain fuel s = None.
Proof.
  revert s. induction fuel as [|fuel IH]; intros s Hne Hall;
    cbn [Engine.retry_failed_downloads].
  - by destruct (failed_downloads s).
  - rewrite retry_candidates_exhausted by done.
    destruct (failed_downloads s) eqn:Hd; [done|].
    apply IH; simpl; by rewrite Hd.
Qed.
End drain_facts.

(** C1 on the code.  One identifier is listed and the server answers 404 to
    every request: [download_structures] returns after three requests for
    it with an empty ledger, and no failure report has been written. *)
Theorem exhausted_failure_is_not_reported :
  ∃ s', PDBDownloader.download_structures env_404 20 one_id_listed = Some (Returned s') ∧
        requests s' = [url PDB "1ABC"; url PDB "1ABC"; url PDB "1ABC"] ∧
        failed_downloads s' = [] ∧
        files s' !! PDBDownloader.failure_file = None ∧
        files s' = files one_id_listed.
Proof. eexists. split; [vm_compute; reflexivity|]. by vm_compute. Qed.

(** C3 on the code.  One identifier is listed three times and the server
    answers 404 to every request: the batch pass leaves its record with
    three attempts, which is never a retry candidate and never cleaned up,
    and the retry loop does not end, whatever the number of iterations. *)
Theorem drain_never_ends_at_the_cap (fuel : nat) :
  PDBDownloader.download_structures env_404 fuel one_id_listed_thrice = None.
Proof.
  unfold PDBDownloader.download_structures.
  set (batch := PDBDownloader.process_batch_files _ _ _).
  assert (Hbatch : ∃ s1, batch = Returned s1 ∧ failed_downloads s1 = one_failure_at 3)
    by (eexists; split; vm_compute; reflexivity).
  destruct Hbatch as (s1 & -> & Hd). unfold Engine.finish. rewrite Hd.
  simpl. rewrite drain_stuck; [done | by rewrite Hd |]. rewrite Hd.
  apply Forall_singleton. simpl. unfold PDBDownloader.MAX_RETRY_ATTEMPTS. lia.
Qed.

(** ** A retry round *)

Section round_facts.
Context (output_dir extension : string).
Context (fetch : string → State → bool * string * State).
Hypothesis fetch_frame : ∀ id s, failed_downloads (fetch id s).2 = failed_downloads s.
Hypothesis fetch_keeps_files :
  ∀ id s p, path_exists p s = true → path_exists p (fetch id s).2 = true.
Hypothesis fetch_success_file :
  ∀ id s, (fetch id s).1.1 = true →
          path_exists (Engine.artifact output_dir extension id) (fetch id s).2 = true.

Local Abbreviation process_one := (Engine.process_one fetch).
Local Abbreviation artifact := (Engine.artifact output_dir extension).

Lemma process_one_keeps_files id s p :
  path_exists p s = true → path_exists p (process_one s id) = true.
Proof.
  intros Hp. unfold Engine.process_one.
  pose proof (fetch_keeps_files id s p Hp) as Hk.
  destruct (fetch id s) as [[ok msg] s1]. simpl in Hk.
  destruct ok; [done|]. unfold path_exists in *.
  by destruct (record_failure_frame id msg s1) as (-> & _ & _).
Qed.

Lemma process_one_other id s k :
  k ≠ id →
  Dict.get k (failed_downloads (process_one s id)) = Dict.get k (failed_downloads s).
Proof.
  intros Hne. unfold Engine.process_one. pose proof (fetch_frame id s) as Hl.
  destruct (fetch id s) as [[ok msg] s1]. simpl in Hl. destruct ok; [by rewrite Hl|].
  rewrite record_failure_get, Hl. by rewrite decide_False.
Qed.

Lemma process_one_keys id s :
  id ∈ Dict.keys (failed_downloads s) →
  Dict.keys (failed_downloads (process_one s id)) = Dict.keys (failed_downloads s).
Proof.
  intros Hin. unfold Engine.process_one. pose proof (fetch_frame id s) as Hl.
  destruct (fetch id s) as [[ok msg] s1]. simpl in Hl. destruct ok; [by rewrite Hl|].
  rewrite record_failure_keys; by rewrite Hl.
Qed.

Lemma process_one_wf id s :
  Dict.wf (failed_downloads s) → Dict.wf (failed_downloads (process_one s id)).
Proof.
  intros Hwf. unfold Engine.process_one. pose proof (fetch_frame id s) as Hl.
  destruct (fetch id s) as [[ok msg] s1]. simpl in Hl. destruct ok; [by rewrite Hl|].
  apply record_failure_wf. by rewrite Hl.
Qed.

(** What handling one task does to the record of its identifier. *)
Lemma process_one_self id s f :
  Dict.get id (failed_downloads s) = Some f →
  (Dict.get id (failed_downloads (process_one s id)) = Some f ∧
   path_exists (artifact id) (process_one s id) = true) ∨
  (∃ f', Dict.get id (failed_downloads (process_one s id)) = Some f' ∧
         attempt f' = attempt f + 1).
Proof.
  intros Hget. unfold Engine.process_one.
  pose proof (fetch_frame id s) as Hl. pose proof (fetch_success_file id s) as Hs.
  destruct (fetch id s) as [[ok msg] s1]. simpl in Hl, Hs. destruct ok.
  - left. rewrite Hl. auto.
  - right. rewrite record_failure_get, Hl, decide_True, Hget by done.
    by eexists.
Qed.

Lemma foldl_process_one_files order s p :
  path_exists p s = true → path_exists p (foldl process_one s order) = true.
Proof.
  revert s. induction order as [|id order IH]; intros s Hp; [done|].
  simpl. by apply IH, process_one_keeps_files.
Qed.

Lemma foldl_process_one_other order s k :
  k ∉ order →
  Dict.get k (failed_downloads (foldl process_one s order)) =
  Dict.get k (failed_downloads s).
Proof.
  revert s. induction order as [|id order IH]; intros s Hk; [done|].
  apply not_elem_of_cons in Hk as [Hne Hk]. simpl.
  rewrite IH by done. by apply process_one_other.
Qed.

Lemma foldl_process_one_keys order s :
  order ⊆ Dict.keys (failed_downloads s) →
  Dict.keys (failed_downloads (foldl process_one s order)) =
  Dict.keys (failed_downloads s).
Proof.
  revert s. induction order as [|id order IH]; intros s Hsub; [done|]. simpl.
  assert (Hid : id ∈ Dict.keys (failed_downloads s))
    by (apply Hsub, elem_of_cons; by left).
  rewrite IH; rewrite process_one_keys by done; [done|].
  intros k Hk. apply Hsub, elem_of_cons. by right.
Qed.

Lemma foldl_process_one_wf order s :
  Dict.wf (failed_downloads s) →
  Dict.wf (failed_downloads (foldl process_one s order)).
Proof.
  revert s. induction order as [|id order IH]; intros s Hwf; [done|].
  simpl. by apply IH, process_one_wf.
Qed.

(** What a batch over distinct identifiers does to the record of each of
    them: the fetch succeeded and the file exists, or one attempt more. *)
Lemma foldl_process_one_self order s k f :
  NoDup order → k ∈ order →
  Dict.get k (failed_downloads s) = Some f →
  (Dict.get k (failed_downloads (foldl process_one s order)) = Some f ∧
   path_exists (artifact k) (foldl process_one s order) = true) ∨
  (∃ f', Dict.get k (failed_downloads (foldl process_one s order)) = Some f' ∧
         attempt f' = attempt f + 1).
Proof.
  revert s. induction order as [|id order IH]; intros s Hnd Hin Hget.
  - by apply elem_of_nil in Hin.
  - apply NoDup_cons in Hnd as [Hnotin Hnd]. simpl.
    apply elem_of_cons in Hin as [->|Hin].
    + rewrite foldl_process_one_other by done.
      destruct (process_one_self id s f Hget) as [[Hsame Hfile]|Hmore].
      * left. split; [done|]. by apply foldl_process_one_files.
      * by right.
    + apply IH; [done..|]. rewrite process_one_other; [done|].
      intros ->. done.
Qed.
End round_facts.

(** ** Termination of the retry loop *)

Lemma sum_list_fmap_lt (K : list string) (g h : string → nat) :
  (∀ k, k ∈ K → (g k ≤ h k)%nat) →
  (∃ k, k ∈ K ∧ (g k < h k)%nat) →
  (sum_list (g <$> K) < sum_list (h <$> K))%nat.
Proof.
  induction K as [|k0 K IH]; intros Hle (k & Hin & Hlt).
  - by apply elem_of_nil in Hin.
  - rewrite !fmap_cons. simpl.
    assert (Hle0 : (g k0 ≤ h k0)%nat) by (apply Hle, elem_of_cons; by left).
    assert (HleK : (sum_list (g <$> K) ≤ sum_list (h <$> K))%nat).
    { assert (HK : ∀ k', k' ∈ K → (g k' ≤ h k')%nat)
        by (intros k' Hk'; apply Hle, elem_of_cons; by right).
      clear -HK. induction K as [|k1 K IHK]; [done|]. rewrite !fmap_cons. simpl.
      assert ((g k1 ≤ h k1)%nat) by (apply HK, elem_of_cons; by left).
      assert ((sum_list (g <$> K) ≤ sum_list (h <$> K))%nat); [|lia].
      apply IHK. intros k' Hk'. apply HK, elem_of_cons. by right. }
    apply elem_of_cons in Hin as [->|Hin]; [lia|].
    assert ((sum_list (g <$> K) < sum_list (h <$> K))%nat); [|lia].
    apply IH; [|by exists k]. intros k' Hk'. apply Hle, elem_of_cons. by right.
Qed.

Lemma sleeps_frame j s :
  files (sleeps j s) = files s ∧ requests (sleeps j s) = requests s ∧
  failed_downloads (sleeps j s) = failed_downloads s ∧
  clock (sleeps j s) = clock s + 60 * Z.of_nat j.
Proof.
  induction j as [|j (Hf & Hr & Hd & Hc)]; [by rewrite Z.add_0_r|].
  unfold sleeps in *. simpl. rewrite Hf, Hr, Hd, Hc. repeat split; lia.
Qed.

Lemma sleeps_succ j s : sleeps (S j) s = sleeps j (sleep 60 s).
Proof. unfold sleeps. apply Nat.iter_succ_r. Qed.

Section termination.
Context (env : Env) (output_dir extension : string) (cap cooldown : Z).
Context (fetch : string → State → bool * string * State).
Hypothesis fetch_frame : ∀ id s, failed_downloads (fetch id s).2 = failed_downloads s.
Hypothesis fetch_keeps_files :
  ∀ id s p, path_exists p s = true → path_exists p (fetch id s).2 = true.
Hypothesis fetch_success_file :
  ∀ id s, (fetch id s).1.1 = true →
          path_exists (Engine.artifact output_dir extension id) (fetch id s).2 = true.
Hypothesis completion_perm : ∀ l, completion env l ≡ₚ l.

Local Abbreviation drain :=
  (Engine.retry_failed_downloads env output_dir extension cap cooldown fetch).
Local Abbreviation candidates := (Engine.retry_candidates cap cooldown).

Lemma head_is_candidate now k f rest :
  attempt f < cap → cooldown ≤ now - timestamp f →
  candidates now ((k, f) :: rest) ≠ [].
Proof.
  intros Hlt Hge. unfold Engine.retry_candidates.
  rewrite filter_cons_True by done. by rewrite fmap_cons.
Qed.

(** While no record is a candidate the loop only sleeps; some record
    becomes one after finitely many sleeps. *)
Lemma drain_waits n s k f rest :
  failed_downloads s = (k, f) :: rest →
  attempt f < cap →
  (Z.to_nat (cooldown + timestamp f - clock s) ≤ n)%nat →
  ∃ j, candidates (clock (sleeps j s)) (failed_downloads s) ≠ [] ∧
       ∀ fuel, drain (j + fuel) s = drain fuel (sleeps j s).
Proof.
  revert s. induction n as [|n IH]; intros s Hd Hlt Hn.
  - exists 0%nat. split; [|done]. simpl. rewrite Hd.
    apply head_is_candidate; [done | lia].
  - destruct (candidates (clock s) (failed_downloads s)) as [|c cs] eqn:Hc.
    + assert (Hwait : clock s - timestamp f < cooldown).
      { apply Z.lt_nge. intros Hge. revert Hc. rewrite Hd.
        apply head_is_candidate; [done | lia]. }
      destruct (IH (sleep 60 s)) as (j & Hj & Hfuel); [done..|simpl; lia|].
      exists (S j). rewrite sleeps_succ. split; [done|].
      intros fuel. cbn [Nat.add Engine.retry_failed_downloads].
      rewrite Hc, Hd. apply Hfuel.
    + exists 0%nat. split; [|done]. simpl. by rewrite Hc.
Qed.

(** One round: the clean-up returns and the ledger is still a dictionary;
    a retried identifier loses at least one retry and its record, if it
    stays, is below the cap; the other identifiers keep their record. *)
Lemma round_progress s :
  Dict.wf (failed_downloads s) →
  let retry := candidates (clock s) (failed_downloads s) in
  ∃ s', Engine.cleanup output_dir extension cap retry
          (Engine.process_batch env fetch retry s) = Returned s' ∧
        Dict.wf (failed_downloads s') ∧
        ∀ k, ((k ∉ retry) ∧
              Dict.get k (failed_downloads s') = Dict.get k (failed_downloads s)) ∨
             ((k ∈ retry) ∧
              (remaining cap (Dict.get k (failed_downloads s')) <
               remaining cap (Dict.get k (failed_downloads s)))%nat ∧
              ∀ f', Dict.get k (failed_downloads s') = Some f' → attempt f' < cap).
Proof.
  intros Hwf retry. unfold Engine.process_batch.
  set (order := completion env retry).
  set (s1 := foldl (Engine.process_one fetch) s order).
  assert (Horder : ∀ k, k ∈ order ↔ k ∈ retry)
    by (intros k; unfold order; by rewrite completion_perm).
  assert (Hnd : NoDup order).
  { unfold order. rewrite completion_perm. by apply retry_candidates_NoDup. }
  assert (Hwf1 : Dict.wf (failed_downloads s1)) by by apply foldl_process_one_wf.
  destruct (cleanup_returns output_dir extension cap retry s1 Hwf1)
    as (s' & Hclean & _ & _ & _ & Hwf' & Hget).
  assert (Hretry : ∀ k, k ∈ retry →
            ∃ f, Dict.get k (failed_downloads s) = Some f ∧ attempt f < cap).
  { intros k (f & Hin & Hlt & _)%retry_candidates_elem. exists f.
    split; [by apply DictFacts.elem_of_get | done]. }
  exists s'. split; [done|]. split; [done|].
  intros k. rewrite Hget. unfold prunes.
  destruct (decide (k ∈ retry)) as [Hin|Hnin].
  - right. split; [done|]. rewrite (bool_decide_eq_true_2 _ Hin). simpl.
    destruct (Hretry k Hin) as (f & Hf & Hlt). rewrite Hf. simpl.
    destruct (foldl_process_one_self output_dir extension fetch fetch_frame
                fetch_keeps_files fetch_success_file order s k f)
      as [[Hsame Hfile]|(f' & Hmore & Hatt)]; [done | by apply Horder | done | |].
    + fold s1 in Hsame, Hfile. rewrite Hsame, Hfile, orb_true_r. simpl.
      split; [lia | done].
    + fold s1 in Hmore. rewrite Hmore.
      destruct (decide (cap ≤ attempt f')) as [Hc|Hc].
      * rewrite (bool_decide_eq_true_2 _ Hc). simpl. split; [lia | done].
      * rewrite (bool_decide_eq_false_2 _ Hc). simpl.
        destruct (path_exists _ s1); simpl; (split; [lia|]); [done|].
        intros ? [= <-]. lia.
  - left. split; [done|]. rewrite (bool_decide_eq_false_2 _ Hnin). simpl.
    unfold s1. apply foldl_process_one_other; [done|]. by rewrite Horder.
Qed.

Lemma round_drainable s s' :
  drainable cap (failed_downloads s) →
  Engine.cleanup output_dir extension cap (candidates (clock s) (failed_downloads s))
    (Engine.process_batch env fetch (candidates (clock s) (failed_downloads s)) s)
    = Returned s' →
  drainable cap (failed_downloads s').
Proof.
  intros [Hwf Hcap] Hs'.
  destruct (round_progress s Hwf) as (s'' & Hround & Hwf' & Hkeys).
  rewrite Hs' in Hround. injection Hround as <-. split; [done|].
  intros k f' Hf'. destruct (Hkeys k) as [[_ Hsame]|(_ & _ & Hlt)]; [|by apply Hlt].
  apply (Hcap k). by rewrite <- Hsame.
Qed.

Lemma drain_terminates_within n K s :
  (budget cap K (failed_downloads s) ≤ n)%nat →
  drainable cap (failed_downloads s) →
  Dict.keys (failed_downloads s) ⊆ K →
  ∃ fuel s', drain fuel s = Some (Returned s') ∧ failed_downloads s' = [].
Proof.
  revert s. induction n as [|n IH]; intros s Hn Hok HK;
    (destruct (failed_downloads s) as [|[k f] rest] eqn:Hd;
     [exists 0%nat, s; simpl; by rewrite Hd|]).
  all: assert (Hf : attempt f < cap)
    by (apply (proj2 Hok k); simpl; by rewrite decide_True).
  all: destruct (drain_waits _ s k f rest Hd Hf (Nat.le_refl _)) as (j & Hj & Hfuel).
  all: rewrite <- Hd in *.
  all: destruct (sleeps_frame j s) as (_ & _ & Hdj & _).
  all: destruct (round_progress (sleeps j s)) as (s1 & Hround & _ & Hkeys);
    [rewrite Hdj; apply Hok|].
  all: assert (Hok1 : drainable cap (failed_downloads s1))
    by (apply (round_drainable (sleeps j s)); [by rewrite Hdj | done]).
  all: rewrite Hdj in Hround, Hkeys.
  all: set (retry := candidates (clock (sleeps j s)) (failed_downloads s)) in *.
  all: assert (Hless : (budget cap K (failed_downloads s1) <
                        budget cap K (failed_downloads s))%nat).
  1,3: unfold budget; apply sum_list_fmap_lt.
  1,3: intros k' _; destruct (Hkeys k') as [[_ ->]|(_ & ? & _)]; lia.
  1,2: destruct retry as [|k0 retry'] eqn:Hretry; [done|];
       exists k0; (split;
         [apply HK, (retry_candidates_keys cap cooldown (clock (sleeps j s)));
          fold retry; rewrite Hretry; apply elem_of_cons; by left|]);
       destruct (Hkeys k0) as [[Hnin _]|(_ & ? & _)]; [|done];
       exfalso; apply Hnin, elem_of_cons; by left.
  - lia.
  - destruct (IH s1) as (fuel & s' & Hdrain & Hempty); [lia | done | |].
    { intros k' Hk'. apply HK. apply dec_stable. intros Hnk.
      apply DictFacts.get_None in Hnk.
      destruct (Hkeys k') as [[_ Hsame]|(_ & Hlt & _)].
      - rewrite <- Hsame in Hnk. by apply DictFacts.get_None in Hnk.
      - rewrite Hnk in Hlt. simpl in Hlt. lia. }
    exists (j + S fuel)%nat, s'. split; [|done]. rewrite Hfuel. simpl.
    rewrite Hdj. rewrite Hd at 1. fold retry.
    destruct retry as [|k0 retry'] eqn:Hretry; [done|]. by rewrite Hround.
Qed.

Lemma drain_terminates s :
  drainable cap (failed_downloads s) →
  ∃ fuel s', drain fuel s = Some (Returned s') ∧ failed_downloads s' = [].
Proof.
  intros Hok.
  by apply (drain_terminates_within _ (Dict.keys (failed_downloads s)) s (Nat.le_refl _)).
Qed.

(** The clean-up of a round never raises [KeyError]. *)
Lemma drain_never_raises fuel s e s' :
  Dict.wf (failed_downloads s) → drain fuel s ≠ Some (Raised e s').
Proof.
  revert s. induction fuel as [|fuel IH]; intros s Hwf;
    cbn [Engine.retry_failed_downloads].
  - by destruct (failed_downloads s).
  - destruct (round_progress s Hwf) as (s1 & Hround & Hwf1 & _).
    destruct (failed_downloads s) as [|kv rest] eqn:Hd; [done|]. rewrite <- Hd in *.
    destruct (candidates (clock s) (failed_downloads s)) as [|c cs] eqn:Hc.
    + by apply (IH (sleep 60 s)).
    + rewrite Hround. by apply IH.
Qed.

(** A record at the cap is never retried, hence never removed: with such a
    record in the ledger the loop is still running after any number of
    iterations. *)
Lemma drain_blocked fuel s k f :
  Dict.wf (failed_downloads s) →
  Dict.get k (failed_downloads s) = Some f → cap ≤ attempt f →
  drain fuel s = None.
Proof.
  revert s. induction fuel as [|fuel IH]; intros s Hwf Hget Hcap;
    cbn [Engine.retry_failed_downloads].
  - by destruct (failed_downloads s).
  - destruct (round_progress s Hwf) as (s' & Hround & Hwf' & Hkeys).
    destruct (failed_downloads s) as [|kv rest] eqn:Hd; [done|]. rewrite <- Hd in *.
    destruct (candidates (clock s) (failed_downloads s)) as [|c cs] eqn:Hc.
    + by apply (IH (sleep 60 s)).
    + rewrite Hround. apply IH; [done| |done].
      destruct (Hkeys k) as [[_ ->]|[Hin _]]; [done|].
      rewrite <- Hc in Hin.
      apply retry_candidates_elem in Hin as (f0 & Hin & Hlt & _).
      apply DictFacts.elem_of_get in Hin; [|done].
      rewrite Hget in Hin. injection Hin as <-. lia.
Qed.
End termination.

(** * Further properties of the code *)

Lemma completion_identity (env : Env) :
  completion env = (λ l, l) → ∀ l, completion env l ≡ₚ l.
Proof. by intros ->. Qed.

(** X1. [_retry_failed_downloads] of either downloader, on a ledger that is
    a dictionary and with a pool that completes every submitted task once:
    the loop returns, after finitely many iterations and with an empty
    ledger, exactly when every record of the ledger it starts from is below
    [MAX_RETRY_ATTEMPTS]. *)
Theorem retry_loop_terminates_iff (which : downloader) (env : Env) (s : State) :
  (∀ l, completion env l ≡ₚ l) →
  Dict.wf (failed_downloads s) →
  (∃ fuel s', retry_failed_downloads which env fuel s = Some (Returned s') ∧
              failed_downloads s' = []) ↔
  (∀ k f, Dict.get k (failed_downloads s) = Some f → attempt f < 3).
Proof.
  intros Hperm Hwf. unfold retry_failed_downloads. split.
  - intros (fuel & s' & Hdrain & _) k f Hget.
    destruct (decide (attempt f < 3)) as [|Hge]; [done|]. exfalso.
    rewrite (drain_blocked env (output_dir which) (extension which) 3 300
               (download_single_file which env) (fetch_ledger which env)
               (fetch_keeps which env) (fetch_success which env) Hperm
               fuel s k f Hwf Hget) in Hdrain; [done | lia].
  - intros Hcap.
    by apply (drain_terminates env (output_dir which) (extension which) 3 300
                (download_single_file which env) (fetch_ledger which env)
                (fetch_keeps which env) (fetch_success which env) Hperm).
Qed.

Lemma retry_loop_terminates_iff_witness :
  let s := mkState ∅ 0 [] first_failure in
  (∃ fuel s', retry_failed_downloads PDB env_404 fuel s = Some (Returned s') ∧
              failed_downloads s' = []) ↔
  (∀ k f, Dict.get k (failed_downloads s) = Some f → attempt f < 3).
Proof.
  intros s. apply (retry_loop_terminates_iff PDB env_404 s).
  - apply completion_identity. reflexivity.
  - apply (NoDup_singleton "1ABC").
Defined.

(** X2. [_retry_failed_downloads] never ends with an exception on a ledger
    that is a dictionary: the look-up [self.failed_downloads[pdb_id]] of
    its clean-up loop cannot raise [KeyError]. *)
Theorem retry_loop_never_raises (which : downloader) (env : Env) (fuel : nat)
    (s s' : State) (e : exn) :
  (∀ l, completion env l ≡ₚ l) →
  Dict.wf (failed_downloads s) →
  retry_failed_downloads which env fuel s ≠ Some (Raised e s').
Proof.
  intros Hperm Hwf.
  by apply (drain_never_raises env (output_dir which) (extension which) 3 300
              (download_single_file which env) (fetch_ledger which env)
              (fetch_keeps which env) (fetch_success which env) Hperm).
Qed.

Lemma retry_loop_never_raises_witness :
  retry_failed_downloads SAbDab env_404 25 (mkState ∅ 0 [] first_failure)
  ≠ Some (Raised (KeyError "1ABC") empty_state).
Proof.
  apply (retry_loop_never_raises SAbDab env_404 25 (mkState ∅ 0 [] first_failure)).
  - apply completion_identity. reflexivity.
  - apply (NoDup_singleton "1ABC").
Defined.

(** X3. When [download_structures] returns, the ledger is empty and
    [_save_failure_summary] has written nothing: the state is the one the
    batch pass left when nothing had failed, and the one the retry loop
    returned otherwise. *)
Theorem download_structures_writes_no_report (env : Env) (fuel : nat)
    (ids : list string) (s s' : State) :
  SabdabDownloader.download_structures env fuel ids s = Some (Returned s') →
  failed_downloads s' = [] ∧
  (s' = SabdabDownloader.process_batch env ids s ∨
   SabdabDownloader.retry_failed_downloads env fuel
     (SabdabDownloader.process_batch env ids s) = Some (Returned s')).
Proof.
  unfold SabdabDownloader.download_structures, Engine.finish,
    SabdabDownloader.retry_failed_downloads.
  set (s1 := SabdabDownloader.process_batch env ids s).
  destruct (failed_downloads s1) as [|kv rest] eqn:Hd.
  - unfold Engine.save_failure_summary. rewrite Hd. intros [= <-]. auto.
  - destruct (Engine.retry_failed_downloads _ _ _ _ _ _ _ s1) as [[s2|e s2]|] eqn:Hdrain;
      [|done..].
    pose proof (drain_returned _ _ _ _ _ _ _ _ _ Hdrain) as Hempty.
    unfold Engine.save_failure_summary. rewrite Hempty. intros [= <-]. auto.
Qed.

Lemma download_structures_writes_no_report_witness :
  let s' := returned_state empty_state
              (SabdabDownloader.download_structures env_404 20 ["1ABC"] empty_state) in
  failed_downloads s' = [] ∧
  (s' = SabdabDownloader.process_batch env_404 ["1ABC"] empty_state ∨
   SabdabDownloader.retry_failed_downloads env_404 20
     (SabdabDownloader.process_batch env_404 ["1ABC"] empty_state) = Some (Returned s')).
Proof.
  intros s'.
  apply (download_structures_writes_no_report env_404 20 ["1ABC"] empty_state s').
  vm_compute. reflexivity.
Defined.

(** X4. [_record_failure] keeps the ledger a dictionary and its insertion
    order: the keys are unchanged when the identifier has a record, and the
    identifier is added after all others when it has none. *)
Theorem record_failure_keeps_order (id msg : string) (s : State) :
  Dict.wf (failed_downloads s) →
  Dict.wf (failed_downloads (Engine.record_failure id msg s)) ∧
  Dict.keys (failed_downloads (Engine.record_failure id msg s)) =
    if decide (id ∈ Dict.keys (failed_downloads s))
    then Dict.keys (failed_downloads s)
    else (Dict.keys (failed_downloads s) ++ [id])%list.
Proof.
  intros Hwf. split; [by apply record_failure_wf|].
  unfold Engine.record_failure.
  destruct (decide (id ∈ Dict.keys (failed_downloads s))) as [Hin|Hnin]; simpl.
  - by rewrite !DictFacts.keys_alter.
  - rewrite DictFacts.keys_set. by rewrite decide_False.
Qed.

Lemma record_failure_keeps_order_witness :
  let s := mkState ∅ 5 [] first_failure in
  Dict.wf (failed_downloads (Engine.record_failure "2XYZ" "timed out" s)) ∧
  Dict.keys (failed_downloads (Engine.record_failure "2XYZ" "timed out" s)) =
    if decide ("2XYZ" ∈ Dict.keys (failed_downloads s))
    then Dict.keys (failed_downloads s)
    else (Dict.keys (failed_downloads s) ++ ["2XYZ"])%list.
Proof.
  intros s. apply (record_failure_keeps_order "2XYZ" "timed out" s).
  apply (NoDup_singleton "1ABC").
Defined.

(** X5. [_download_single_file] reports success for an identifier whose
    file it has to fetch only when the server answered 200; the file of the
    identifier then holds exactly the body of the response, one request
    has been added to the log and the ledger is untouched. *)
Theorem download_success_spec (which : downloader) (env : Env) (id : string)
    (s : State) :
  which = PDB ∨ path_exists (artifact which id) s = false →
  (download_single_file which env id s).1.1 = true →
  ∃ body, reply_to env (url which id) s = Response 200 body ∧
          files (download_single_file which env id s).2 =
            <[artifact which id := body]> (files s) ∧
          requests (download_single_file which env id s).2 =
            (requests s ++ [url which id])%list ∧
          failed_downloads (download_single_file which env id s).2 = failed_downloads s.
Proof.
  unfold reply_to, artifact, Engine.artifact. intros Hfetch.
  destruct which; simpl.
  - unfold PDBDownloader.download_single_file, requests_get.
    destruct (remote env _ _) as [e|code body]; [done|].
    destruct (decide (code = 200)) as [->|]; [|done].
    unfold write_file. simpl.
    destruct (storage env _ _) as [[?|??]|]; [done..|].
    intros _. by exists body.
  - destruct Hfetch as [|Habsent]; [done|].
    unfold SabdabDownloader.download_single_file, requests_get.
    simpl in Habsent. rewrite Habsent.
    destruct (remote env _ _) as [e|code body]; [done|].
    destruct (decide (code = 200)) as [->|]; [|done].
    unfold write_file. simpl.
    destruct (storage env _ _) as [[?|??]|]; [done..|].
    intros _. by exists body.
Qed.

Lemma download_success_spec_witness :
  ∃ body, reply_to env_200 (url PDB "1ABC") empty_state = Response 200 body ∧
          files (download_single_file PDB env_200 "1ABC" empty_state).2 =
            <[artifact PDB "1ABC" := body]> (files empty_state) ∧
          requests (download_single_file PDB env_200 "1ABC" empty_state).2 =
            (requests empty_state ++ [url PDB "1ABC"])%list ∧
          failed_downloads (download_single_file PDB env_200 "1ABC" empty_state).2 =
            failed_downloads empty_state.
Proof.
  apply (download_success_spec PDB env_200 "1ABC" empty_state).
  - by left.
  - reflexivity.
Defined.

(** X6. When the write of a downloaded body fails after [open] has created
    the file, [SabdabDownloader._download_single_file] reports a failure
    and leaves the part that was written; its next call for the same
    identifier finds that file and reports success without a request. *)
Theorem sabdab_partial_file_counts_as_downloaded (env env' : Env) (id : string)
    (s : State) (body e written : string) :
  path_exists (artifact SAbDab id) s = false →
  reply_to env (url SAbDab id) s = Response 200 body →
  storage env (artifact SAbDab id) (length (requests s ++ [url SAbDab id])) =
    Some (WriteFails e written) →
  let r := SabdabDownloader.download_single_file env id s in
  r.1 = (false, "Error downloading " +:+ id +:+ ".pdb: " +:+ e) ∧
  files r.2 !! artifact SAbDab id = Some written ∧
  SabdabDownloader.download_single_file env' id r.2 =
    (true, "Already downloaded " +:+ id +:+ ".pdb", r.2).
Proof.
  intros Habsent Hreply Hdisk r.
  unfold reply_to, artifact, Engine.artifact in *. simpl in Habsent, Hreply, Hdisk.
  simpl extension. simpl output_dir.
  assert (Hr : r = (false, "Error downloading " +:+ id +:+ ".pdb: " +:+ e,
                    mkState (<[path_join SabdabDownloader.output_dir (id +:+ ".pdb")
                               := written]> (files s))
                            (clock s + elapsed env (url SAbDab id)
                               (length (filter (λ u, u = url SAbDab id) (requests s))))
                            (requests s ++ [url SAbDab id]) (failed_downloads s))).
  { subst r. unfold SabdabDownloader.download_single_file, requests_get.
    rewrite Habsent. simpl in Hreply. rewrite Hreply.
    rewrite decide_True by done. unfold write_file. simpl. by rewrite Hdisk. }
  rewrite Hr. simpl. split; [done|]. split; [by rewrite lookup_insert_eq|].
  apply SabdabFacts.sabdab_fetch_present.
  unfold path_exists, Engine.artifact. simpl.
  apply bool_decide_eq_true. rewrite lookup_insert_eq. by eexists.
Qed.

Lemma sabdab_partial_file_counts_as_downloaded_witness :
  let r := SabdabDownloader.download_single_file env_disk_full "1ABC" empty_state in
  r.1 = (false, "Error downloading 1ABC.pdb: No space left on device") ∧
  files r.2 !! artifact SAbDab "1ABC" = Some "data" ∧
  SabdabDownloader.download_single_file env_404 "1ABC" r.2 =
    (true, "Already downloaded 1ABC.pdb", r.2).
Proof.
  apply (sabdab_partial_file_counts_as_downloaded env_disk_full env_404 "1ABC"
           empty_state "data_1ABC" "No space left on device" "data");
    reflexivity.
Defined.

Section batch_files.
Context (output_dir extension : string).
Context (fetch : string → State → bool * string * State).
Hypothesis fetch_frame : ∀ id s, failed_downloads (fetch id s).2 = failed_downloads s.
Hypothesis fetch_keeps_files :
  ∀ id s p, path_exists p s = true → path_exists p (fetch id s).2 = true.
Hypothesis fetch_success_file :
  ∀ id s, (fetch id s).1.1 = true →
          path_exists (Engine.artifact output_dir extension id) (fetch id s).2 = true.

Lemma outcomes_success_file order s o :
  o ∈ outcomes fetch order s → o.1.2 = true →
  path_exists (Engine.artifact output_dir extension o.1.1)
    (foldl (Engine.process_one fetch) s order) = true.
Proof.
  revert s. induction order as [|id order IH]; intros s Hin Hok.
  - by apply elem_of_nil in Hin.
  - simpl in Hin. apply elem_of_cons in Hin as [->|Hin]; [|by apply IH].
    simpl in *. apply (foldl_process_one_files fetch fetch_keeps_files).
    unfold Engine.process_one. pose proof (fetch_success_file id s Hok) as Hfile.
    destruct (fetch id s) as [[ok msg] s1]. simpl in *. by subst ok.
Qed.
End batch_files.


(** X7. After a batch of either downloader, the file of every identifier
    one of whose fetches reported success exists. *)
Theorem batch_success_leaves_file (which : downloader) (env : Env)
    (ids : list string) (s : State) (o : string * bool * string) :
  o ∈ outcomes (download_single_file which env) (completion env ids) s →
  o.1.2 = true →
  path_exists (artifact which o.1.1) (process_batch which env ids s) = true.
Proof.
  intros Hin Hok. unfold process_batch, Engine.process_batch, artifact.
  by apply (outcomes_success_file (output_dir which) (extension which)
              (download_single_file which env) (fetch_keeps which env)
              (fetch_success which env)).
Qed.

Lemma batch_success_leaves_file_witness :
  path_exists (artifact PDB "1ABC") (process_batch PDB env_200 ["1ABC"] empty_state) = true.
Proof.
  apply (batch_success_leaves_file PDB env_200 ["1ABC"] empty_state
           ("1ABC", true, "Successfully downloaded 1ABC.cif")).
  - vm_compute. apply list_elem_of_here.
  - reflexivity.
Defined.

(** X8. A batch of either downloader keeps the ledger a dictionary, leaves
    the record of every identifier that was not submitted as it is, and
    removes no file. *)
Theorem process_batch_frame (which : downloader) (env : Env) (ids : list string)
    (s : State) :
  completion env ids ≡ₚ ids →
  (Dict.wf (failed_downloads s) →
   Dict.wf (failed_downloads (process_batch which env ids s))) ∧
  (∀ k, k ∉ ids →
        Dict.get k (failed_downloads (process_batch which env ids s)) =
        Dict.get k (failed_downloads s)) ∧
  (∀ p, path_exists p s = true →
        path_exists p (process_batch which env ids s) = true).
Proof.
  intros Hperm. unfold process_batch, Engine.process_batch. split; [|split].
  - apply foldl_process_one_wf, fetch_ledger.
  - intros k Hk. apply foldl_process_one_other; [apply fetch_ledger|].
    by rewrite Hperm.
  - intros p. apply foldl_process_one_files, fetch_keeps.
Qed.

Lemma process_batch_frame_witness :
  let s := mkState ∅ 5 [] first_failure in
  (Dict.wf (failed_downloads s) →
   Dict.wf (failed_downloads (process_batch PDB env_404 ["2XYZ"] s))) ∧
  (∀ k, k ∉ ["2XYZ"] →
        Dict.get k (failed_downloads (process_batch PDB env_404 ["2XYZ"] s)) =
        Dict.get k (failed_downloads s)) ∧
  (∀ p, path_exists p s = true →
        path_exists p (process_batch PDB env_404 ["2XYZ"] s) = true).
Proof.
  intros s. apply (process_batch_frame PDB env_404 ["2XYZ"] s). reflexivity.
Defined.

(** ** Reading the failure report back *)

Lemma string_app_assoc (a b c : string) : (a +:+ b) +:+ c = a +:+ b +:+ c.
Proof.
  induction a as [|x a IH]; [done|].
  change (String x ((a +:+ b) +:+ c) = String x (a +:+ b +:+ c)). by rewrite IH.
Qed.

Lemma has_char_app c a b : has_char c (a +:+ b) = has_char c a || has_char c b.
Proof.
  induction a as [|c' a IH]; [done|]. simpl. rewrite IH. by rewrite orb_assoc.
Qed.

Lemma has_newline_app a b : has_newline (a +:+ b) = has_newline a || has_newline b.
Proof.
  unfold has_newline. rewrite !has_char_app.
  destruct (has_char _ a), (has_char _ b), (has_char _ a), (has_char _ b); done.
Qed.

Lemma has_newline_cons c s :
  has_newline (String c s) =
  bool_decide (c = ascii_of_nat 10) || bool_decide (c = ascii_of_nat 13) || has_newline s.
Proof.
  unfold has_newline. simpl.
  destruct (bool_decide (c = _)), (bool_decide (c = _)), (has_char _ s); done.
Qed.

Lemma pretty_N_char_plain x : has_newline (String (pretty_N_char x) "") = false.
Proof. unfold pretty_N_char. by repeat case_match. Qed.

Lemma pretty_N_go_plain x s : has_newline s = false → has_newline (pretty_N_go x s) = false.
Proof.
  revert s. induction (N.lt_wf_0 x) as [x _ IH]; intros s Hs.
  assert (x = 0 ∨ 0 < x)%N as [->|?] by lia.
  - by rewrite pretty_N_go_0.
  - rewrite pretty_N_go_step by done. apply IH; [by apply N.div_lt|].
    change (String ?c s) with (String c "" +:+ s).
    by rewrite has_newline_app, pretty_N_char_plain.
Qed.

Lemma pretty_Z_plain (z : Z) : has_newline (pretty z) = false.
Proof.
  assert (HN : ∀ n : N, has_newline (pretty n) = false).
  { intros n. unfold pretty, pretty_N. destruct (decide (n = 0%N)); [done|].
    by apply pretty_N_go_plain. }
  destruct z as [|p|p]; [done|apply (HN (Npos p))|].
  change (pretty (Zneg p)) with ("-" +:+ pretty (Npos p)).
  rewrite has_newline_app. by rewrite (HN (Npos p)).
Qed.

Lemma readlines_line a rest :
  has_newline a = false → readlines (a +:+ LF +:+ rest) = (a +:+ LF) :: readlines rest.
Proof.
  induction a as [|c a IH]; intros Ha; [done|].
  rewrite has_newline_cons in Ha.
  apply orb_false_iff in Ha as [[Hlf Hcr]%orb_false_iff Ha].
  apply bool_decide_eq_false in Hlf, Hcr.
  change (String c a +:+ LF +:+ rest) with (String c (a +:+ LF +:+ rest)).
  cbn [readlines]. rewrite !decide_False by done. by rewrite IH.
Qed.

(** X9. When no identifier and no error message of the ledger contains a
    line break, the content [_save_failure_summary] writes, read back with
    [readlines], is exactly one line per record, in the order of the
    ledger. *)
Theorem report_has_one_line_per_record (d : list (string * DownloadFailure)) :
  Forall (λ kv, has_newline kv.1 = false ∧ has_newline (error_msg kv.2) = false) d →
  readlines (Engine.report d) = Engine.report_line <$> d ∧
  length (readlines (Engine.report d)) = length d.
Proof.
  intros Hplain.
  assert (Hlines : readlines (Engine.report d) = Engine.report_line <$> d).
  { induction Hplain as [|[k f] d [Hk Hmsg] _ IH]; [done|].
    cbn [Engine.report foldr fmap list_fmap]. fold (Engine.report d).
    unfold Engine.report_line at 1. simpl fst. simpl snd.
    replace ((k +:+ TAB +:+ pretty (attempt f) +:+ TAB +:+ error_msg f +:+ LF)
             +:+ Engine.report d)
      with ((k +:+ TAB +:+ pretty (attempt f) +:+ TAB +:+ error_msg f)
            +:+ LF +:+ Engine.report d).
    2:{ by rewrite !string_app_assoc. }
    rewrite readlines_line.
    - rewrite IH. f_equal. unfold Engine.report_line. simpl.
      by rewrite !string_app_assoc.
    - simpl in Hk, Hmsg. rewrite !has_newline_app, Hk, Hmsg, pretty_Z_plain. done. }
  split; [done|]. by rewrite Hlines, length_fmap.
Qed.

Lemma report_has_one_line_per_record_witness :
  readlines (Engine.report one_failure) = Engine.report_line <$> one_failure ∧
  length (readlines (Engine.report one_failure)) = length one_failure.
Proof.
  apply (report_has_one_line_per_record one_failure).
  apply Forall_singleton. split; reflexivity.
Defined.

(** ** [SabdabDownloader.fetch_pdb_ids] *)








(** ** [PDBDownloader.download_structures] *)

Lemma strip_prefix_app a b s :
  strip_prefix (a +:+ b) s =
  match strip_prefix a s with
  | Some rest => strip_prefix b rest
  | None => None
  end.
Proof.
  revert s. induction a as [|c a IH]; intros s; [done|].
  destruct s as [|c' s]; [done|].
  change (String c a +:+ b) with (String c (a +:+ b)). cbn [strip_prefix].
  destruct (decide (c = c')); [apply IH | done].
Qed.

(** X11. With no file whose path starts with
    [datasets/raw/pdb_ids/pdb_ids_batch_] and an empty ledger,
    [PDBDownloader.download_structures] returns at once: no request, no
    file written, the state unchanged. *)
Theorem download_structures_without_batch_files (env : Env) (fuel : nat) (s : State) :
  (∀ path, is_Some (files s !! path) →
           strip_prefix "datasets/raw/pdb_ids/pdb_ids_batch_" path = None) →
  failed_downloads s = [] →
  PDBDownloader.download_structures env fuel s = Some (Returned s).
Proof.
  intros Hnone Hempty. unfold PDBDownloader.download_structures.
  assert (Hfiles : filter (λ f, is_Some (strip_prefix "pdb_ids_batch_" f))
                     (listdir PDBDownloader.ids_dir s) = []).
  { destruct (filter _ (listdir PDBDownloader.ids_dir s)) as [|name names] eqn:Hf; [done|].
    exfalso. assert (Hin : name ∈ filter (λ f, is_Some (strip_prefix "pdb_ids_batch_" f))
                                   (listdir PDBDownloader.ids_dir s))
      by (rewrite Hf; apply list_elem_of_here).
    apply list_elem_of_filter in Hin as [Hbatch Hin]. unfold listdir in Hin.
    apply list_elem_of_omap in Hin as ([path data] & Hpath & Hname).
    apply elem_of_map_to_list in Hpath. cbn [fst] in Hname.
    specialize (Hnone path (ex_intro _ data Hpath)).
    change "datasets/raw/pdb_ids/pdb_ids_batch_"
      with ((PDBDownloader.ids_dir +:+ "/") +:+ "pdb_ids_batch_") in Hnone.
    rewrite strip_prefix_app in Hnone.
    destruct (strip_prefix (PDBDownloader.ids_dir +:+ "/") path) as [rest|]; [|done].
    destruct (has_slash rest || bool_decide (rest = "")); [done|].
    injection Hname as ->. rewrite Hnone in Hbatch. by destruct Hbatch. }
  rewrite Hfiles. cbn [sorted merge_sort]. unfold sorted.
  change (merge_sort _ []) with (@nil string). simpl.
  unfold Engine.finish, Engine.save_failure_summary. by rewrite Hempty.
Qed.

Lemma download_structures_without_batch_files_witness :
  PDBDownloader.download_structures env_404 0
    (state_of_files {[ "datasets/raw/pdb/1ABC.cif" := "data_1ABC" ]})
  = Some (Returned (state_of_files {[ "datasets/raw/pdb/1ABC.cif" := "data_1ABC" ]})).
Proof.
  apply (download_structures_without_batch_files env_404 0).
  - intros path [data Hdata]. cbn [state_of_files files] in Hdata.
    apply lookup_singleton_Some in Hdata as [<- _]. reflexivity.
  - reflexivity.
Defined.

(** ** A run in which nothing fails *)







(** ** The requests of the retry loop *)

Lemma fetch_request_count which env id s :
  (length (requests (download_single_file which env id s).2) ≤ S (length (requests s)))%nat.
Proof.
  destruct which; simpl.
  - rewrite PDBFacts.pdb_fetch_requests, length_app. simpl. lia.
  - unfold SabdabDownloader.download_single_file, requests_get.
    destruct (path_exists _ s); [simpl; lia|].
    destruct (remote env _ _) as [e|code body]; [simpl; rewrite length_app; simpl; lia|].
    destruct (decide (code = 200)); [|simpl; rewrite length_app; simpl; lia].
    match goal with |- context [write_file env ?p ?d ?s0] =>
      pose proof (write_file_frame env p d s0) as (_ & Hr & _);
      destruct (write_file env p d s0) as [[fault|] s2] end;
      simpl in *; rewrite Hr, length_app; simpl; lia.
Qed.

Lemma sum_list_fmap_retried (K retry : list string) (g h : string → nat) :
  NoDup retry → retry ⊆ K →
  (∀ k, ((k ∉ retry) ∧ g k = h k) ∨ ((k ∈ retry) ∧ (g k < h k)%nat)) →
  (sum_list (g <$> K) + length retry ≤ sum_list (h <$> K))%nat.
Proof.
  intros Hnd Hsub Hkeys.
  assert (Hfilter : (sum_list (g <$> K) + length (filter (.∈ retry) K)
                     ≤ sum_list (h <$> K))%nat).
  { clear Hsub. induction K as [|k K IH]; [done|]. rewrite !fmap_cons. simpl.
    destruct (Hkeys k) as [[Hnin Heq]|[Hin Hlt]].
    - rewrite filter_cons_False by done. lia.
    - rewrite filter_cons_True by done. simpl. lia. }
  assert (Hlen : (length retry ≤ length (filter (.∈ retry) K))%nat); [|lia].
  apply submseteq_length, NoDup_submseteq; [done|].
  intros k Hk. apply list_elem_of_filter. split; [done | by apply Hsub].
Qed.

Section request_bound.
Context (env : Env) (output_dir extension : string) (cap cooldown : Z).
Context (fetch : string → State → bool * string * State).
Hypothesis fetch_frame : ∀ id s, failed_downloads (fetch id s).2 = failed_downloads s.
Hypothesis fetch_keeps_files :
  ∀ id s p, path_exists p s = true → path_exists p (fetch id s).2 = true.
Hypothesis fetch_success_file :
  ∀ id s, (fetch id s).1.1 = true →
          path_exists (Engine.artifact output_dir extension id) (fetch id s).2 = true.
Hypothesis fetch_one_request :
  ∀ id s, (length (requests (fetch id s).2) ≤ S (length (requests s)))%nat.
Hypothesis completion_perm : ∀ l, completion env l ≡ₚ l.

Local Abbreviation drain :=
  (Engine.retry_failed_downloads env output_dir extension cap cooldown fetch).
Local Abbreviation candidates := (Engine.retry_candidates cap cooldown).

Lemma foldl_process_one_requests order s :
  (length (requests (foldl (Engine.process_one fetch) s order))
   ≤ length (requests s) + length order)%nat.
Proof.
  revert s. induction order as [|id order IH]; intros s; [simpl; lia|].
  simpl. etrans; [apply IH|].
  assert ((length (requests (Engine.process_one fetch s id)) ≤ S (length (requests s)))%nat);
    [|lia].
  unfold Engine.process_one. pose proof (fetch_one_request id s) as Hone.
  destruct (fetch id s) as [[ok msg] s1]. simpl in Hone. destruct ok; [done|].
  by destruct (record_failure_frame id msg s1) as (_ & _ & ->).
Qed.

Lemma drain_request_bound fuel K s s' :
  drainable cap (failed_downloads s) →
  Dict.keys (failed_downloads s) ⊆ K →
  drain fuel s = Some (Returned s') →
  (length (requests s') ≤ length (requests s) + budget cap K (failed_downloads s))%nat.
Proof.
  revert s. induction fuel as [|fuel IH]; intros s Hok HK;
    cbn [Engine.retry_failed_downloads].
  - destruct (failed_downloads s); [|done]. intros [= <-]. lia.
  - destruct (round_progress env output_dir extension cap cooldown fetch fetch_frame
                fetch_keeps_files fetch_success_file completion_perm s (proj1 Hok))
      as (s1 & Hround & Hwf1 & Hkeys).
    pose proof (round_drainable env output_dir extension cap cooldown fetch fetch_frame
                  fetch_keeps_files fetch_success_file completion_perm s s1 Hok Hround)
      as Hok1.
    destruct (failed_downloads s) as [|kv rest] eqn:Hd; [intros [= <-]; lia|].
    rewrite <- Hd in *.
    set (retry := candidates (clock s) (failed_downloads s)) in *.
    destruct retry as [|c cs] eqn:Hc.
    + intros Hdrain. apply (IH (sleep 60 s)) in Hdrain; done.
    + rewrite Hround. intros Hdrain. rewrite <- Hc in *.
      apply (IH s1) in Hdrain; [|done|].
      2:{ intros k' Hk'. apply HK. apply dec_stable. intros Hnk.
          apply DictFacts.get_None in Hnk.
          destruct (Hkeys k') as [[_ Hsame]|(_ & Hlt & _)].
          - rewrite <- Hsame in Hnk. by apply DictFacts.get_None in Hnk.
          - rewrite Hnk in Hlt. simpl in Hlt. lia. }
      assert (Hreq : (length (requests s1) ≤ length (requests s) + length retry)%nat).
      { destruct (cleanup_returns output_dir extension cap retry
                    (Engine.process_batch env fetch retry s))
          as (s1' & Hclean & _ & _ & Hr & _).
        { unfold Engine.process_batch. apply foldl_process_one_wf; [done | apply Hok]. }
        rewrite Hround in Hclean. injection Hclean as <-. rewrite Hr.
        unfold Engine.process_batch. etrans; [apply foldl_process_one_requests|].
        by rewrite completion_perm. }
      assert (Hbudget : (budget cap K (failed_downloads s1) + length retry
                         ≤ budget cap K (failed_downloads s))%nat); [|lia].
      unfold budget. apply sum_list_fmap_retried.
      * apply retry_candidates_NoDup, Hok.
      * intros k Hk. by apply HK, (retry_candidates_keys cap cooldown (clock s)).
      * intros k. destruct (Hkeys k) as [[Hnin ->]|(Hin & Hlt & _)]; [by left | by right].
Qed.
End request_bound.

Lemma budget_keys cap (d : list (string * DownloadFailure)) :
  Dict.wf d →
  budget cap (Dict.keys d) d = sum_list ((λ kv, Z.to_nat (cap - attempt kv.2)) <$> d).
Proof.
  unfold Dict.wf, budget, Dict.keys. induction d as [|[k f] d IH]; [done|].
  rewrite !fmap_cons. intros [Hnin Hwf]%NoDup_cons. cbn [sum_list fst snd Dict.get].
  rewrite decide_True by done. cbn [remaining]. f_equal. rewrite <- IH by done.
  f_equal. apply Forall_fmap_ext, Forall_forall. intros k' Hk'.
  rewrite decide_False; [done|]. by intros ->.
Qed.

(** X13. The retry loop of either downloader, started on a ledger that is
    a dictionary with all records below the cap, sends at most as many
    requests as the records have retries left: the sum, over the records,
    of 3 minus the attempt count. *)
Theorem retry_loop_request_bound (which : downloader) (env : Env) (fuel : nat)
    (s s' : State) :
  (∀ l, completion env l ≡ₚ l) →
  drainable 3 (failed_downloads s) →
  retry_failed_downloads which env fuel s = Some (Returned s') →
  (length (requests s') ≤
   length (requests s) +
   sum_list ((λ kv, Z.to_nat (3 - attempt kv.2)) <$> failed_downloads s))%nat.
Proof.
  intros Hperm Hok Hdrain.
  pose proof (drain_request_bound env (output_dir which) (extension which) 3 300
                (download_single_file which env) (fetch_ledger which env)
                (fetch_keeps which env) (fetch_success which env)
                (fetch_request_count which env) Hperm fuel
                (Dict.keys (failed_downloads s)) s s' Hok (reflexivity _) Hdrain) as Hbound.
  by rewrite (budget_keys 3 _ (proj1 Hok)) in Hbound.
Qed.

Lemma retry_loop_request_bound_witness :
  let s := mkState ∅ 0 [] first_failure in
  let s' := returned_state empty_state (retry_failed_downloads PDB env_404 20 s) in
  (length (requests s') ≤
   length (requests s) +
   sum_list ((λ kv, Z.to_nat (3 - attempt kv.2)) <$> failed_downloads s))%nat.
Proof.
  intros s s'. apply (retry_loop_request_bound PDB env_404 20 s s').
  - apply completion_identity. reflexivity.
  - split; [apply (NoDup_singleton "1ABC")|].
    intros k f. simpl. destruct (decide ("1ABC" = k)); [|done].
    intros [= <-]. simpl. lia.
  - vm_compute. reflexivity.
Defined.

(** ** [PDBDownloader.fetch_pdb_ids] and [_save_batch_ids] *)

Lemma string_length_app (a b : string) :
  String.length (a +:+ b) = (String.length a + String.length b)%nat.
Proof.
  induction a as [|c a IH]; [done|].
  change (String c a +:+ b) with (String c (a +:+ b)). simpl. by rewrite IH.
Qed.

Lemma string_app_inj_r (a b c : string) : a +:+ c = b +:+ c → a = b.
Proof.
  revert b. induction a as [|x a IH]; intros [|y b] Heq; [done| | |].
  - apply (f_equal String.length) in Heq.
    change (String.length c = S (String.length (b +:+ c))) in Heq.
    rewrite string_length_app in Heq. lia.
  - apply (f_equal String.length) in Heq.
    change (S (String.length (a +:+ c)) = String.length c) in Heq.
    rewrite string_length_app in Heq. lia.
  - change (String x (a +:+ c) = String y (b +:+ c)) in Heq.
    injection Heq as -> Heq. f_equal. by apply IH.
Qed.

Lemma batch_path_inj i j : batch_path i = batch_path j → i = j.
Proof.
  unfold batch_path. intros Heq.
  assert (Hjoin : ∀ k : Z, path_join PDBDownloader.ids_dir
                         ("pdb_ids_batch_" +:+ pretty k +:+ ".txt") =
                       "datasets/raw/pdb_ids/pdb_ids_batch_" +:+ pretty k +:+ ".txt")
    by (intros k; reflexivity).
  rewrite !Hjoin in Heq. apply (inj (String.app _)) in Heq.
  apply string_app_inj_r in Heq. by apply (inj pretty).
Qed.

Lemma py_slice_app {A} (l l' : list A) (lo hi : Z) :
  0 ≤ lo → 0 ≤ hi → hi ≤ Z.of_nat (length l) →
  py_slice (l ++ l') lo hi = py_slice l lo hi.
Proof.
  intros Hlo Hhi0 Hhi. unfold py_slice, slice_bound. rewrite length_app.
  rewrite !(decide_False (P := lo < 0)) by lia.
  rewrite !(decide_False (P := hi < 0)) by lia.
  replace (Z.min hi (Z.of_nat (length l + length l'))) with hi by lia.
  replace (Z.min hi (Z.of_nat (length l))) with hi by lia.
  destruct (decide (hi < lo)) as [Hlt|Hge].
  - replace (Z.to_nat (hi - Z.min lo (Z.of_nat (length l + length l')))) with 0%nat by lia.
    by replace (Z.to_nat (hi - Z.min lo (Z.of_nat (length l)))) with 0%nat by lia.
  - replace (Z.min lo (Z.of_nat (length l + length l'))) with lo by lia.
    replace (Z.min lo (Z.of_nat (length l))) with lo by lia.
    rewrite drop_app_le by lia. rewrite take_app_le; [done|].
    rewrite length_drop. lia.
Qed.

Section search_facts.
Context (env : Env) (search : string → Z → Z → SearchReply).
Context (cutoff_date : string) (batch_size : Z).
Hypothesis batch_size_pos : 0 < batch_size.
Hypothesis page_fits :
  ∀ start ids, search cutoff_date start 100 = ResultSet ids →
               Z.of_nat (length ids) ≤ batch_size.
Hypothesis no_fault : ∀ path n, storage env path n = None.

Lemma save_batch_ids_ok all_ids batch_count s :
  PDBDownloader.save_batch_ids env all_ids batch_count batch_size s =
  Returned (set_files (<[batch_path batch_count :=
                           str_join LF (batch_of all_ids batch_size batch_count)]> (files s)) s).
Proof.
  unfold PDBDownloader.save_batch_ids, write_file. by rewrite no_fault.
Qed.

Lemma batches_saved_grow all_ids ids batch_count s :
  batches_saved batch_size all_ids batch_count s →
  Z.of_nat (length ids) ≤ batch_size →
  let all_ids' := (all_ids ++ ids)%list in
  let s1 := PDBDownloader.requests_post env PDBDownloader.search_url s in
  if decide ((batch_count + 1) * batch_size ≤ Z.of_nat (length all_ids')) then
    batches_saved batch_size all_ids' (batch_count + 1)
      (set_files (<[batch_path batch_count :=
                      str_join LF (batch_of all_ids' batch_size batch_count)]> (files s1)) s1)
  else batches_saved batch_size all_ids' batch_count s1.
Proof.
  intros (Hbc & Hlen & Hfiles) Hpage all_ids' s1.
  assert (Hlen' : Z.of_nat (length all_ids') =
                  Z.of_nat (length all_ids) + Z.of_nat (length ids))
    by (unfold all_ids'; rewrite length_app; lia).
  assert (Hold : ∀ i, 0 ≤ i < batch_count →
            batch_of all_ids' batch_size i = batch_of all_ids batch_size i).
  { intros i Hi. unfold batch_of, all_ids'. apply py_slice_app; nia. }
  destruct (decide _) as [Hfull|Hnot].
  - split; [lia|]. split; [nia|]. intros i Hi. simpl.
    destruct (decide (i = batch_count)) as [->|Hne].
    + by rewrite lookup_insert_eq.
    + rewrite lookup_insert_ne by (intros Heq%batch_path_inj; done).
      rewrite Hold by lia. apply Hfiles. lia.
  - split; [lia|]. split; [nia|]. intros i Hi. simpl.
    rewrite Hold by lia. by apply Hfiles.
Qed.

Lemma fetch_pages_saved fuel all_ids start batch_count s all_ids' batch_count' o :
  batches_saved batch_size all_ids batch_count s →
  PDBDownloader.fetch_pages env search fuel cutoff_date batch_size all_ids start
    batch_count s = Some (all_ids', batch_count', o) →
  ∃ s', o = Returned s' ∧ batches_saved batch_size all_ids' batch_count' s'.
Proof.
  revert all_ids start batch_count s.
  induction fuel as [|fuel IH]; intros all_ids start batch_count s Hinv; [done|].
  cbn [PDBDownloader.fetch_pages].
  destruct (search cutoff_date start 100) as [e|ids] eqn:Hpage.
  - intros [= <- <- <-]. by eexists.
  - destruct ids as [|id ids]; [intros [= <- <- <-]; by eexists|].
    pose proof (batches_saved_grow all_ids (id :: ids) batch_count s Hinv
                  (page_fits _ _ Hpage)) as Hgrow.
    cbv zeta in Hgrow. destruct (decide _) as [Hfull|Hnot].
    + rewrite save_batch_ids_ok. by apply IH.
    + by apply IH.
Qed.

Lemma fetch_pdb_ids_saved fuel s all_ids s' :
  PDBDownloader.fetch_pdb_ids env search fuel cutoff_date batch_size s =
    Some (all_ids, Returned s') →
  ∀ i, 0 ≤ i → i * batch_size < Z.of_nat (length all_ids) →
       files s' !! batch_path i = Some (str_join LF (batch_of all_ids batch_size i)).
Proof.
  unfold PDBDownloader.fetch_pdb_ids.
  destruct (PDBDownloader.fetch_pages _ _ _ _ _ _ _ _ _) as [[[all_ids0 bc] o]|] eqn:Hpages;
    [|done].
  apply fetch_pages_saved in Hpages as (s1 & -> & Hbc & Hlen & Hfiles).
  2:{ split; [done|]. split; [simpl; lia|]. intros i Hi. lia. }
  destruct (decide _) as [Hrest|Hnone].
  - rewrite save_batch_ids_ok. intros [= <- <-] i Hi Hlt. simpl.
    destruct (decide (i = bc)) as [->|Hne]; [by rewrite lookup_insert_eq|].
    rewrite lookup_insert_ne by (intros Heq%batch_path_inj; done).
    apply Hfiles. nia.
  - intros [= <- <-] i Hi Hlt. apply Hfiles. nia.
Qed.
End search_facts.

Lemma py_slice_lookup {A} (l : list A) (lo hi : Z) (p : nat) (x : A) :
  0 ≤ lo → lo ≤ Z.of_nat p < hi → l !! p = Some x → x ∈ py_slice l lo hi.
Proof.
  intros Hlo Hp Hx. pose proof (lookup_lt_Some _ _ _ Hx) as Hlen.
  unfold py_slice, slice_bound. rewrite !decide_False by lia.
  replace (Z.min lo (Z.of_nat (length l))) with lo by lia.
  apply list_elem_of_lookup. exists (p - Z.to_nat lo)%nat.
  rewrite lookup_take_lt by lia. rewrite lookup_drop.
  by replace (Z.to_nat lo + (p - Z.to_nat lo))%nat with p by lia.
Qed.

(** X14. [fetch_pdb_ids] with a positive batch size, pages of at most
    [batch_size] identifiers and a disk without faults: when it returns,
    the batch file of every index [i] with [i * batch_size] below the
    number of identifiers found holds the identifiers of positions
    [i * batch_size] to [(i + 1) * batch_size], joined by line feeds, and
    every identifier found is in one of these batches. *)
Theorem fetch_pdb_ids_saves_every_batch (env : Env)
    (search : string → Z → Z → SearchReply) (fuel : nat) (cutoff_date : string)
    (batch_size : Z) (s s' : State) (all_ids : list string) :
  0 < batch_size →
  (∀ start ids, search cutoff_date start 100 = ResultSet ids →
                Z.of_nat (length ids) ≤ batch_size) →
  (∀ path n, storage env path n = None) →
  PDBDownloader.fetch_pdb_ids env search fuel cutoff_date batch_size s =
    Some (all_ids, Returned s') →
  (∀ i, 0 ≤ i → i * batch_size < Z.of_nat (length all_ids) →
        files s' !! batch_path i = Some (str_join LF (batch_of all_ids batch_size i))) ∧
  (∀ id, id ∈ all_ids →
         ∃ i, 0 ≤ i ∧ i * batch_size < Z.of_nat (length all_ids) ∧
              id ∈ batch_of all_ids batch_size i).
Proof.
  intros Hpos Hpage Hdisk Hfetch. split.
  - by apply (fetch_pdb_ids_saved env search cutoff_date batch_size Hpos Hpage Hdisk fuel s).
  - intros id [p Hp]%list_elem_of_lookup.
    pose proof (lookup_lt_Some _ _ _ Hp) as Hlen.
    exists (Z.of_nat p `div` batch_size).
    assert (Hdiv : (Z.of_nat p `div` batch_size) * batch_size ≤ Z.of_nat p
                   < (Z.of_nat p `div` batch_size + 1) * batch_size).
    { pose proof (Z.mul_div_le (Z.of_nat p) batch_size Hpos).
      pose proof (Z.mul_succ_div_gt (Z.of_nat p) batch_size Hpos). lia. }
    assert (0 ≤ Z.of_nat p `div` batch_size) by (apply Z.div_pos; lia).
    split; [done|]. split; [lia|].
    unfold batch_of. apply (py_slice_lookup _ _ _ p); [nia | done | done].
Qed.

Lemma fetch_pdb_ids_saves_every_batch_witness :
  let r := PDBDownloader.fetch_pdb_ids env_404 two_pages 5 "2020-01-01" 3 empty_state in
  let all_ids := ["1ABC"; "2XYZ"; "3DEF"; "4GHI"] in
  let s' := match r with Some (_, o) => final_state o | None => empty_state end in
  (∀ i, 0 ≤ i → i * 3 < Z.of_nat (length all_ids) →
        files s' !! batch_path i = Some (str_join LF (batch_of all_ids 3 i))) ∧
  (∀ id, id ∈ all_ids →
         ∃ i, 0 ≤ i ∧ i * 3 < Z.of_nat (length all_ids) ∧ id ∈ batch_of all_ids 3 i).
Proof.
  intros r all_ids s'.
  apply (fetch_pdb_ids_saves_every_batch env_404 two_pages 5 "2020-01-01" 3 empty_state).
  - lia.
  - intros start ids. unfold two_pages.
    repeat destruct (decide _); intros [= <-]; simpl; lia.
  - done.
  - vm_compute. reflexivity.
Defined.

(** X15. A failure of the search is not fatal for [download_pdb.py]: when
    the first request of [fetch_pdb_ids] raises, [fetch_pdb_ids] returns
    the empty list without an exception and without writing a file, and
    [main] goes on to [download_structures] with the batch files that are
    on disk. *)
Theorem search_failure_is_not_fatal (env : Env) (search : string → Z → Z → SearchReply)
    (fuel_search fuel_retry : nat) (s : State) (e : string) :
  search "2020-01-01" 0 100 = SearchRaises e →
  let s0 := set_failed_downloads [] s in
  let s1 := PDBDownloader.requests_post env PDBDownloader.search_url s0 in
  PDBDownloader.fetch_pdb_ids env search (S fuel_search) "2020-01-01" 1000 s0 =
    Some ([], Returned s1) ∧
  files s1 = files s ∧
  PDBDownloader.main env search (S fuel_search) fuel_retry s =
    PDBDownloader.download_structures env fuel_retry s1.
Proof.
  intros Hdown s0 s1.
  assert (Hfetch : PDBDownloader.fetch_pdb_ids env search (S fuel_search)
                     "2020-01-01" 1000 s0 = Some ([], Returned s1)).
  { unfold PDBDownloader.fetch_pdb_ids. cbn [PDBDownloader.fetch_pages].
    rewrite Hdown. by rewrite decide_False by (simpl; lia). }
  split; [done|]. split; [done|].
  unfold PDBDownloader.main. fold s0. by rewrite Hfetch.
Qed.

Lemma search_failure_is_not_fatal_witness :
  let s0 := set_failed_downloads [] one_id_listed in
  let s1 := PDBDownloader.requests_post env_200 PDBDownloader.search_url s0 in
  PDBDownloader.fetch_pdb_ids env_200 search_down 1 "2020-01-01" 1000 s0 =
    Some ([], Returned s1) ∧
  files s1 = files one_id_listed ∧
  PDBDownloader.main env_200 search_down 1 0 one_id_listed =
    PDBDownloader.download_structures env_200 0 s1.
Proof.
  apply (search_failure_is_not_fatal env_200 search_down 0 0 one_id_listed
           "Connection refused").
  reflexivity.
Defined.

(** ** Reading a batch file back *)









(** ** [SabdabDownloader.main] always ends *)





